(** * grippenet/geojson: the choropleth map widget (src/index.ts)

    A shallow embedding of the data normalisation, template binding,
    palette resolution and style selection of the [ChoroMap] widget, and
    the properties of it that the specification states.

    Conventions of the embedding.
    - A JavaScript [number] is a rational, or one of NaN, +Infinity and
      -Infinity.  The doubles are a subset of the rationals; the program
      only compares numbers and subtracts 1 from a number that a guard
      has placed between 0 and an array length, where the double
      subtraction either is exact or produces a negative non-index.
    - A JavaScript string is a [string]; the characters the program
      looks at are all ASCII.
    - An object used as a record ([Record<string, T>]) and a [Map] that is
      only read by key are [gmap string T]; the [Map] of a [Template],
      which is iterated in insertion order, is an association list.
    - The conversions of the platform that the program relies on but does
      not define (number to string, string to number) and the colour table
      of [./colors] are parameters, passed as type classes. *)

From Stdlib Require Import QArith Qround Ascii String DecimalString.
From stdpp Require Import gmap strings list fin_maps.

(** ** JavaScript values *)

Module JS.

Inductive number : Type :=
| NaN
| PInf
| NInf
| Fin (q : Q).

Definition of_Z (z : Z) : number := Fin (inject_Z z).
Definition of_nat (n : nat) : number := of_Z (Z.of_nat n).

(** [x <= y] *)
Definition le (x y : number) : bool :=
  match x, y with
  | Fin a, Fin b => Qle_bool a b
  | NInf, (NInf | Fin _ | PInf) => true
  | Fin _, PInf => true
  | PInf, PInf => true
  | _, _ => false
  end.

(** [x < y] *)
Definition lt (x y : number) : bool :=
  match x, y with
  | Fin a, Fin b => negb (Qle_bool b a)
  | NInf, (Fin _ | PInf) => true
  | Fin _, PInf => true
  | _, _ => false
  end.

(** [x >= y] and [x > y] *)
Definition ge (x y : number) : bool := le y x.
Definition gt (x y : number) : bool := lt y x.

(** [x - y] *)
Definition sub (x y : number) : number :=
  match x, y with
  | Fin a, Fin b => Fin (a - b)
  | NaN, _ | _, NaN => NaN
  | PInf, PInf | NInf, NInf => NaN
  | PInf, _ | _, NInf => PInf
  | NInf, _ | _, PInf => NInf
  end.

(** ToBoolean on a number: 0 and NaN are falsy. *)
Definition truthy (x : number) : bool :=
  match x with
  | NaN => false
  | Fin q => negb (Qeq_bool q 0)
  | PInf | NInf => true
  end.

Definition is_integer (q : Q) : bool :=
  (Qnum q mod Zpos (Qden q) =? 0)%Z.

(** [a[x]] on an array: an element when [x] is an integer index below
    the length, [undefined] for every other number. *)
Definition get {A : Type} (a : list A) (x : number) : option A :=
  match x with
  | Fin q =>
      if is_integer q && Qle_bool 0 q then a !! Z.to_nat (Qfloor q)
      else None
  | _ => None
  end.

(** [a.length] *)
Definition length {A : Type} (a : list A) : number :=
  of_nat (List.length a).

End JS.

Abbreviation number := JS.number.

(** [Scalar = number | string | boolean] *)
Inductive Scalar : Type :=
| SNum (n : number)
| SStr (s : string)
| SBool (b : bool).

(** The conversions of the platform that the program calls and does not
    define: [Number::toString] (in ['' + v]) and [StringToNumber] (in
    [+v]). *)
Class Platform : Type := {
  number_to_string : number -> string;
  string_to_number : string -> number
}.

(** ToBoolean on a scalar. *)
Definition truthy (v : Scalar) : bool :=
  match v with
  | SNum n => JS.truthy n
  | SStr s => negb (String.eqb s "")
  | SBool b => b
  end.

(** ['' + v] *)
Definition to_string `{Platform} (v : Scalar) : string :=
  match v with
  | SNum n => number_to_string n
  | SStr s => s
  | SBool true => "true"
  | SBool false => "false"
  end.

(** [+v] *)
Definition to_number `{Platform} (v : Scalar) : number :=
  match v with
  | SNum n => n
  | SStr s => string_to_number s
  | SBool true => JS.of_Z 1
  | SBool false => JS.of_Z 0
  end.

(** ** Strings: [String.prototype.replace] and global [match] *)

Module Str.

Fixpoint drop (n : nat) (s : string) : string :=
  match n, s with
  | O, _ => s
  | S k, String _ s' => drop k s'
  | S _, EmptyString => EmptyString
  end.

(** [s.startsWith(p)] *)
Fixpoint starts_with (p s : string) : bool :=
  match p, s with
  | EmptyString, _ => true
  | String a p', String b s' => Ascii.eqb a b && starts_with p' s'
  | String _ _, EmptyString => false
  end.

(** The text before and after the first occurrence of [pat] in [s],
    [None] when [pat] does not occur ([s.indexOf(pat) == -1]). *)
Fixpoint split_first (pat s : string) : option (string * string) :=
  if starts_with pat s then Some (EmptyString, drop (String.length pat) s)
  else
    match s with
    | EmptyString => None
    | String c s' =>
        match split_first pat s' with
        | Some (pre, suf) => Some (String c pre, suf)
        | None => None
        end
    end.

(** GetSubstitution for a string pattern: there are no captures, so of
    the dollar forms only [$$], [$&], [$`] and [$'] are expanded; a
    dollar followed by anything else stands for itself. *)
Fixpoint get_substitution (matched pre suf : string) (r : string) : string :=
  match r with
  | EmptyString => EmptyString
  | String c r1 =>
      if Ascii.eqb c "$" then
        match r1 with
        | EmptyString => String c EmptyString
        | String d r2 =>
            if Ascii.eqb d "$" then String "$" (get_substitution matched pre suf r2)
            else if Ascii.eqb d "&" then matched +:+ get_substitution matched pre suf r2
            else if Ascii.eqb d "`" then pre +:+ get_substitution matched pre suf r2
            else if Ascii.eqb d "'" then suf +:+ get_substitution matched pre suf r2
            else String c (get_substitution matched pre suf r1)
        end
      else String c (get_substitution matched pre suf r1)
  end.

(** [s.replace(pat, r)] with a string pattern: the first occurrence
    only. *)
Definition replace (s pat r : string) : string :=
  match split_first pat s with
  | Some (pre, suf) => pre +:+ get_substitution pat pre suf r +:+ suf
  | None => s
  end.

(** [s.replace(/\{|\}/g, '')] *)
Fixpoint strip_braces (s : string) : string :=
  match s with
  | EmptyString => EmptyString
  | String c s' =>
      if Ascii.eqb c "{" || Ascii.eqb c "}" then strip_braces s'
      else String c (strip_braces s')
  end.

End Str.

(** ** The placeholder grammar *)

(** The character class [[_a-zA-z0-9]] of [regexpVars], range by range as
    it is written (the range [A-z] also holds the six characters between
    [Z] and [a]). *)
Definition var_char (c : ascii) : bool :=
  let n := N_of_ascii c in
  ((n =? 95) || ((97 <=? n) && (n <=? 122)) || ((65 <=? n) && (n <=? 122))
   || ((48 <=? n) && (n <=? 57)))%N.

(** The longest run of class characters at the head of [s], and the rest. *)
Fixpoint span_var (s : string) : string * string :=
  match s with
  | EmptyString => (EmptyString, EmptyString)
  | String c s' =>
      if var_char c then
        let '(name, rest) := span_var s' in (String c name, rest)
      else (EmptyString, s)
  end.

(** [regexpVars] tried at the head of [s].  The closing brace is not in the
    class, so the greedy run is the only candidate: giving characters back
    cannot produce a match. *)
Definition exec_here (s : string) : option string :=
  match s with
  | String c s1 =>
      if Ascii.eqb c "{" then
        match span_var s1 with
        | (String n name, String d _) =>
            if Ascii.eqb d "}" then Some (String c (String n name +:+ "}"))
            else None
        | _ => None
        end
      else None
  | EmptyString => None
  end.

(** [s.match(regexpVars)] with the [g] flag: every match, left to right,
    the search resuming after the end of the previous match.  [skip] is
    the number of characters of [s] that the previous match still covers. *)
Fixpoint match_from (skip : nat) (s : string) : list string :=
  match s with
  | EmptyString => []
  | String _ s' =>
      match skip with
      | S k => match_from k s'
      | O =>
          match exec_here s with
          | Some m => m :: match_from (String.length m - 1) s'
          | None => match_from 0 s'
          end
      end
  end.

Definition match_regexpVars (s : string) : list string := match_from 0 s.

(** ** Template *)

Module Template.

(** [vars]: placeholder [{var}] as key, variable name as value, in
    insertion order. *)
Record t : Type := mk {
  vars : list (string * string);
  template : string
}.

Definition has (vars : list (string * string)) (m : string) : bool :=
  bool_decide (m ∈ vars.*1).

(** The callback of [r.forEach] in the constructor. *)
Definition record_var (vars : list (string * string)) (m : string)
  : list (string * string) :=
  if has vars m then vars else vars ++ [(m, Str.strip_braces m)].

Definition new (template : string) : t :=
  {| template := template;
     vars := foldl record_var [] (match_regexpVars template) |}.

(** The callback of [this.vars.forEach] in [bind].  [data.has(variable)]
    holds exactly when the lookup is [Some v]; the value is then defined
    and [?? ''] keeps it. *)
Definition substitute `{Platform} (data : gmap string Scalar) (txt : string)
    (entry : string * string) : string :=
  let '(placeholder, variable) := entry in
  match data !! variable with
  | Some v => Str.replace txt placeholder (to_string v)
  | None => txt
  end.

Definition bind `{Platform} (self : t) (data : gmap string Scalar) : string :=
  foldl (substitute data) (template self) (vars self).

End Template.

(** ** The interfaces of the map data *)

Module FranceChoroMapOpts.
Record t : Type := mk {
  width : option string;
  height : option string;
  data : string;
  layout : string;
  flavor : option string;
  selectorLabel : option string;
  defaultOpacity : option number
}.
End FranceChoroMapOpts.

Module ColorPalette.
Record t : Type := mk {
  name : option string;
  label : option string;
  colors : option (list string);
  opacity : option number
}.
End ColorPalette.

(** The interface [Variable]; the name is a keyword of the prover. *)
Module Variable_.
Record t : Type := mk {
  color : string;
  title : string;
  popup : option string;
  labels : list string
}.
End Variable_.

(** [LayerDataAttributes = Record<string, Scalar>] and
    [LayerData = Record<string, LayerDataAttributes>] *)
Abbreviation LayerDataAttributes := (gmap string Scalar).
Abbreviation LayerData := (gmap string (gmap string Scalar)).

Module LayerView.
Record t : Type := mk { data : LayerData }.
End LayerView.

(** [colors: number | string[]] *)
Inductive ColorsDef : Type :=
| ColorCount (n : number)
| ColorList (l : list string).

Module InputMapData.
Record t : Type := mk {
  data : option (gmap string number);
  colors : ColorsDef;
  labels : option (list string);
  variables : option (list Variable_.t);
  palettes : option (list ColorPalette.t);
  layout : string;
  defaultLayer : option number;
  layers : option (list LayerView.t);
  defaultOpacity : option number
}.
End InputMapData.

Module MapData.
Record t : Type := mk {
  variables : list Variable_.t;
  palettes : list ColorPalette.t;
  n_colors : number;
  layout : string;
  layers : list LayerView.t;
  defaultLayer : number;
  defaultOpacity : option number
}.
End MapData.

(** A GeoJSON feature, as far as the widget reads it:
    [feature.properties?.code]. *)
Record Feature : Type := { properties : option (gmap string Scalar) }.

(** ** The internal palettes of [./colors] *)

(** The table [colorPalettes.palettes]: for a palette name, the colour
    list of each scale size. *)
Class ColorsModule : Type := {
  colorPalettes_palettes : gmap string (number -> option (list string))
}.

Definition get_palette `{ColorsModule} (name : string) (length : number)
  : option (list string) :=
  match colorPalettes_palettes !! name with
  | None => None
  | Some p => p length
  end.

(** ** DataView *)

Module DataView.

Record t : Type := mk {
  data : gmap string (gmap string Scalar);
  variable : Variable_.t;
  popupTemplate : option Template.t
}.

Definition updateVariable (self : t) : t :=
  match Variable_.popup (variable self) with
  | Some popup =>
      if negb (String.eqb popup "") then
        mk (data self) (variable self) (Some (Template.new popup))
      else mk (data self) (variable self) None
  | None => mk (data self) (variable self) None
  end.

Definition setVariable (v : Variable_.t) (self : t) : t :=
  updateVariable (mk (data self) v (popupTemplate self)).

Definition getColorLabels (self : t) : list string :=
  Variable_.labels (variable self).

(** The labels of a variable are a list, hence truthy: of the first
    guard only [!index] can hold. *)
Definition colorLabel (variable : Variable_.t) (index : number) : option string :=
  if negb (JS.truthy index) then None
  else if JS.gt index (JS.of_Z 0)
          && JS.le index (JS.length (Variable_.labels variable))
  then JS.get (Variable_.labels variable) (JS.sub index (JS.of_Z 1))
  else None.

(** The body of the loop of the constructor, on the record of one
    feature. *)
Definition attributes_of `{Platform} (variable : Variable_.t)
    (record : gmap string Scalar) : gmap string Scalar :=
  let attributes := record in
  match attributes !! Variable_.color variable with
  | Some color =>
      if truthy color then
        let color_label := colorLabel variable (to_number color) in
        <["_label_" := SStr (default "" color_label)]> attributes
      else attributes
  | None => attributes
  end.

Definition new `{Platform} (data : LayerData) (variable : Variable_.t) : t :=
  updateVariable (mk (attributes_of variable <$> data) variable None).

Definition getRecord `{Platform} (self : t) (feature : option Feature)
  : option (gmap string Scalar) :=
  match feature with
  | Some f =>
      match properties f ≫= (fun p => p !! "code") with
      | Some id => if truthy id then data self !! to_string id else None
      | None => None
      end
  | None => None
  end.

Definition getColorValue `{Platform} (self : t) (feature : option Feature)
  : option number :=
  match getRecord self feature with
  | Some record =>
      match record !! Variable_.color (variable self) with
      | Some v => Some (to_number v)
      | None => None
      end
  | None => None
  end.

(** ['' + x] on [string | undefined] *)
Definition string_of_label (x : option string) : string :=
  default "undefined" x.

Definition color_label_content `{Platform} (self : t) (feature : option Feature)
  : string :=
  match getColorValue self feature with
  | Some v =>
      if JS.truthy v then string_of_label (colorLabel (variable self) v)
      else ""
  | None => ""
  end.

Definition getPopupContent `{Platform} (self : t) (feature : option Feature)
  : string :=
  match popupTemplate self with
  | Some tpl =>
      match getRecord self feature with
      | Some record => Template.bind tpl record
      | None => color_label_content self feature
      end
  | None => color_label_content self feature
  end.

End DataView.

(** ** ChoroMap *)

(** What [loadLayout] asks of the platform: [$.getJSON(url)], or
    [fetch(url)] read as an array buffer and decoded by [geobuf]. *)
Inductive LayoutLoader : Type :=
| GetJSON (url : string)
| FetchGeobuf (url : string).

(** The path options a style function returns; [color] is [undefined]
    when the palette has no element at the index read. *)
Record PathStyle : Type := {
  color : option string;
  stroke : bool;
  fillOpacity : number
}.

(** A method either completes or throws a [TypeError]; the state that a
    throwing call leaves behind is not modelled. *)
Inductive completion (A : Type) : Type :=
| Normal (a : A)
| TypeError.
Arguments Normal {A} a.
Arguments TypeError {A}.

Module ChoroMap.

(** The fields of the class.  Of the Leaflet layer the model keeps the
    features and the path options last given to each of them, and of
    the DOM element the entries (label, colour) of the legend. *)
Record t : Type := mk {
  opts : FranceChoroMapOpts.t;
  data : option MapData.t;
  dataView : option DataView.t;
  dataLayerIndex : number;
  variableIndex : number;
  palette : number;
  palettes : list ColorPalette.t;
  layer : option (list (Feature * option PathStyle));
  legend : list (option string * string)
}.

Definition new (opts : FranceChoroMapOpts.t) : t :=
  {| opts := opts; data := None; dataView := None;
     dataLayerIndex := JS.of_Z 0; variableIndex := JS.of_Z 0;
     palette := JS.of_Z 0; palettes := []; layer := None; legend := [] |}.

Definition loadLayout (self : t) : LayoutLoader :=
  let flavor := default "geojson" (FranceChoroMapOpts.flavor (opts self)) in
  if String.eqb flavor "geojson"
  then GetJSON (FranceChoroMapOpts.layout (opts self))
  else FetchGeobuf (FranceChoroMapOpts.layout (opts self)).

(** Past the two length guards [layers[defaultLayer]] and [variables[0]]
    are defined. *)
Definition importData `{Platform} (input : InputMapData.t) (self : t) : t :=
  let defaultLayer := JS.of_Z 0 in
  let '(variables, layers) :=
    match InputMapData.data input with
    | Some data =>
        ([ Variable_.mk "c" "" None (default [] (InputMapData.labels input)) ],
         [ LayerView.mk ((fun v => {[ "c" := SNum v ]}) <$> data) ])
    | None =>
        (default [] (InputMapData.variables input),
         default [] (InputMapData.layers input))
    end in
  let '(palettes0, n_colors) :=
    match InputMapData.colors input with
    | ColorList colors => ([ ColorPalette.mk None None (Some colors) None ],
                           JS.length colors)
    | ColorCount n => ([], n)
    end in
  let palettes := default palettes0 (InputMapData.palettes input) in
  let self := mk (opts self) (data self) (dataView self) (dataLayerIndex self)
                 (variableIndex self) (JS.of_Z 0) (ChoroMap.palettes self)
                 (layer self) (legend self) in
  if Nat.eqb (List.length layers) 0 then self
  else if Nat.eqb (List.length variables) 0 then self
  else
    match JS.get layers defaultLayer, JS.get variables (JS.of_Z 0) with
    | Some layer0, Some variable0 =>
        mk (opts self)
           (Some (MapData.mk variables palettes n_colors
                    (InputMapData.layout input) layers defaultLayer
                    (InputMapData.defaultOpacity input)))
           (Some (DataView.new (LayerView.data layer0) variable0))
           defaultLayer (JS.of_Z 0) (palette self) (ChoroMap.palettes self)
           (layer self) (legend self)
    | _, _ => self
    end.

(** The body of the loop of [buildPalettes] on one definition: the
    definition as the loop leaves it ([def.colors = cc] writes into the
    object held by [data.palettes]) and the palette list after it. *)
Definition buildPalette `{ColorsModule} (n_colors : number)
    (def : ColorPalette.t) (palettes : list ColorPalette.t)
  : ColorPalette.t * list ColorPalette.t :=
  match ColorPalette.colors def with
  | Some _ => (def, palettes ++ [def])
  | None =>
      match ColorPalette.name def with
      | Some name =>
          if negb (String.eqb name "") then
            match get_palette name n_colors with
            | Some cc =>
                let def := ColorPalette.mk (ColorPalette.name def)
                             (ColorPalette.label def) (Some cc)
                             (ColorPalette.opacity def) in
                (def, palettes ++ [def])
            | None => (def, palettes)
            end
          else (def, palettes)
      | None => (def, palettes)
      end
  end.

Definition buildPalettes `{ColorsModule} (self : t) : t :=
  match data self with
  | None => self
  | Some d =>
      let n_colors := MapData.n_colors d in
      let '(defs, palettes) :=
        foldl (fun '(defs, palettes) def =>
                 let '(def, palettes) := buildPalette n_colors def palettes in
                 (defs ++ [def], palettes))
              ([], palettes self) (MapData.palettes d) in
      mk (opts self)
         (Some (MapData.mk (MapData.variables d) defs (MapData.n_colors d)
                  (MapData.layout d) (MapData.layers d)
                  (MapData.defaultLayer d) (MapData.defaultOpacity d)))
         (dataView self) (dataLayerIndex self) (variableIndex self)
         (palette self) palettes (layer self) (legend self)
  end.

Definition getValue `{Platform} (self : t) (feature : option Feature)
  : option number :=
  match dataView self with
  | Some dv => DataView.getColorValue dv feature
  | None => None
  end.

(** The function [updateStyle] gives to [layer.setStyle]; it closes over
    [colors] and [fillOpacity].  The earlier revision of the class reads
    the value from [dataValues] and has the same function. *)
Definition style `{Platform} (self : t) (colors : list string)
    (fillOpacity : number) (feature : option Feature) : PathStyle :=
  let n_colors := JS.length colors in
  let color :=
    match getValue self feature with
    | Some v =>
        if JS.ge v (JS.of_Z 1) && JS.le v n_colors
        then JS.get colors (JS.sub v (JS.of_Z 1))
        else Some "#EEEEEE"
    | None => Some "#EEEEEE"
    end in
  {| color := color; stroke := false; fillOpacity := fillOpacity |}.

Definition defaultOpacity (self : t) : number :=
  let truthy_or (o : option number) (k : number) :=
    match o with
    | Some x => if JS.truthy x then x else k
    | None => k
    end in
  truthy_or (data self ≫= MapData.defaultOpacity)
    (truthy_or (FranceChoroMapOpts.defaultOpacity (opts self))
       (JS.Fin (6 # 10))).

(** [layer.setStyle(f)] applies [f] to the feature of every path of the
    layer. *)
Definition setStyle (f : option Feature -> PathStyle)
    (layer : list (Feature * option PathStyle))
  : list (Feature * option PathStyle) :=
  (fun p => (p.1, Some (f (Some p.1)))) <$> layer.

Definition updateStyle `{Platform} (self : t) : t :=
  match data self, dataView self, layer self with
  | Some _, Some dv, Some layer =>
      match JS.get (palettes self) (palette self) with
      | Some p =>
          match ColorPalette.colors p with
          | Some colors =>
              let fillOpacity :=
                match ColorPalette.opacity p with
                | Some o => if JS.truthy o then o else defaultOpacity self
                | None => defaultOpacity self
                end in
              let labels := DataView.getColorLabels dv in
              mk (opts self) (data self) (dataView self)
                 (dataLayerIndex self) (variableIndex self) (palette self)
                 (palettes self)
                 (Some (setStyle (style self colors fillOpacity) layer))
                 (imap (fun index value => (labels !! index, value)) colors)
          | None => self
          end
      | None => self
      end
  | _, _, _ => self
  end.

(** [draw], on the model of the layer: the layer is created from the
    features of the layout, then styled. *)
Definition draw `{Platform} (layout : list Feature) (self : t) : t :=
  match data self with
  | None => self
  | Some _ =>
      updateStyle
        (mk (opts self) (data self) (dataView self) (dataLayerIndex self)
            (variableIndex self) (palette self) (palettes self)
            (Some ((fun f => (f, None)) <$> layout)) (legend self))
  end.

(** The continuation of [load], once the data and the layout have
    arrived. *)
Definition load `{Platform} `{ColorsModule} (input : InputMapData.t)
    (layout : list Feature) (self : t) : t :=
  draw layout (buildPalettes (importData input self)).

(** The [change] handler of the palette selector. *)
Definition selectPalette `{Platform} (index : number) (self : t) : t :=
  updateStyle
    (mk (opts self) (data self) (dataView self) (dataLayerIndex self)
        (variableIndex self) index (palettes self) (layer self)
        (legend self)).

(** [selectVariable]; when the guard lets a non-integral index through,
    [variables[index]] is [undefined] and [updateVariable] throws on
    reading its [popup]. *)
Definition selectVariable `{Platform} (index : number) (self : t)
  : completion t :=
  match data self, dataView self with
  | Some d, Some dv =>
      if JS.ge index (JS.of_Z 0)
         && JS.le index (JS.sub (JS.length (MapData.variables d)) (JS.of_Z 1))
      then
        match JS.get (MapData.variables d) index with
        | Some v =>
            Normal
              (updateStyle
                 (mk (opts self) (data self)
                     (Some (DataView.setVariable v dv))
                     (dataLayerIndex self) index (palette self)
                     (palettes self) (layer self) (legend self)))
        | None => TypeError
        end
      else Normal self
  | _, _ => Normal self
  end.

End ChoroMap.

(** ** Notions used by the statements *)

(** Every character of [s] is in the class of [regexpVars]. *)
Fixpoint all_var (s : string) : bool :=
  match s with
  | EmptyString => true
  | String c s' => var_char c && all_var s'
  end.

(** The language of [regexpVars]: an opening brace, one or more class
    characters, a closing brace. *)
Definition placeholder (p : string) : Prop :=
  ∃ name, p = "{" +:+ name +:+ "}" ∧ name ≠ "" ∧ all_var name = true.

(** [p] occurs in [t]. *)
Definition substring (p t : string) : Prop :=
  ∃ pre suf, t = pre +:+ p +:+ suf.

(** The number of positions of [s] at which [p] starts. *)
Fixpoint occurrences (p s : string) : nat :=
  match s with
  | EmptyString => 0
  | String _ s' => (if Str.starts_with p s then 1 else 0) + occurrences p s'
  end.

(** The reading of the specification of [bind]: one pass over the
    template in which every occurrence of a placeholder whose name is a
    key of the data is replaced by the string form of its value, and
    everything else is copied.  [skip] is as in [match_from]. *)
Fixpoint bind_every_from `{Platform} (data : gmap string Scalar) (skip : nat)
    (s : string) : string :=
  match s with
  | EmptyString => EmptyString
  | String c s' =>
      match skip with
      | S k => bind_every_from data k s'
      | O =>
          match exec_here s with
          | Some m =>
              match data !! Str.strip_braces m with
              | Some v =>
                  to_string v +:+ bind_every_from data (String.length m - 1) s'
              | None => String c (bind_every_from data 0 s')
              end
          | None => String c (bind_every_from data 0 s')
          end
      end
  end.

Definition bind_every_occurrence `{Platform} (template : string)
    (data : gmap string Scalar) : string :=
  bind_every_from data 0 template.

(** A platform for the examples: the integers are written and read in
    decimal; the examples convert no other number and no other string. *)
Definition example_platform : Platform :=
  {| number_to_string n :=
       match n with
       | JS.Fin q => NilZero.string_of_int (Z.to_int (Qfloor q))
       | JS.NaN => "NaN"
       | JS.PInf => "Infinity"
       | JS.NInf => "-Infinity"
       end;
     string_to_number s :=
       match NilZero.int_of_string s with
       | Some i => JS.of_Z (Z.of_int i)
       | None => JS.NaN
       end |}.

(** The label of a colour value as the specification words it: the label
    at the 1-indexed position when the value is one of 1 .. the number of
    labels, and the empty string otherwise. *)
Definition label_at (labels : list string) (x : number) : string :=
  match x with
  | JS.Fin q =>
      if JS.is_integer q && (1 <=? Qfloor q)%Z
         && (Qfloor q <=? Z.of_nat (List.length labels))%Z
      then default "" (labels !! Z.to_nat (Qfloor q - 1))
      else ""
  | _ => ""
  end.

(** Two palettes of the colour table, for the examples. *)
Definition example_colors : ColorsModule :=
  {| colorPalettes_palettes :=
       {[ "BuPu" := fun length =>
            if JS.le length (JS.of_Z 3) && JS.ge length (JS.of_Z 3)
            then Some ["#e0ecf4"; "#9ebcda"; "#8856a7"] else None;
          "Greys" := fun length =>
            if JS.le length (JS.of_Z 3) && JS.ge length (JS.of_Z 3)
            then Some ["#f0f0f0"; "#bdbdbd"; "#636363"] else None ]} |}.

Definition example_opts : FranceChoroMapOpts.t :=
  FranceChoroMapOpts.mk None None "data.json" "france.json" None None None.

(** A feature with the code [code]. *)
Definition feature_of_code (code : string) : Feature :=
  {| properties := Some {[ "code" := SStr code ]} |}.

(** The legacy input of the examples: one feature with the colour value
    [v], a palette of two colours given in the data. *)
Definition example_input (v : number) : InputMapData.t :=
  InputMapData.mk (Some {[ "01" := v ]}) (ColorList ["#111111"; "#222222"])
    (Some ["low"; "high"]) None None "france" None None None.

(** The map after [load] of that input and of a layout of that feature. *)
Definition example_map (v : number) : ChoroMap.t :=
  @ChoroMap.load example_platform example_colors (example_input v)
    [feature_of_code "01"] (ChoroMap.new example_opts).

(** What the specification says a palette definition contributes to the
    palette list: itself when it carries colours; when it carries only a
    name, itself with the colours of that name at the scale size; nothing
    when the name is unknown at that size or when it has neither colours
    nor name (an empty name is no name). *)
Definition resolved_palette `{ColorsModule} (n_colors : number)
    (def : ColorPalette.t) : option ColorPalette.t :=
  match ColorPalette.colors def, ColorPalette.name def with
  | Some _, _ => Some def
  | None, Some name =>
      if decide (name = "") then None
      else
        match get_palette name n_colors with
        | Some cc =>
            Some (ColorPalette.mk (ColorPalette.name def)
                    (ColorPalette.label def) (Some cc)
                    (ColorPalette.opacity def))
        | None => None
        end
  | None, None => None
  end.

(** Every palette of the list has a colour list. *)
Definition palettes_defined (palettes : list ColorPalette.t) : Prop :=
  Forall (fun p => is_Some (ColorPalette.colors p)) palettes.

(** The states of a map: the constructor, then any sequence of the
    operations of the class and of the handlers it installs. *)
Inductive reachable `{Platform} `{ColorsModule} : ChoroMap.t -> Prop :=
| reach_new opts : reachable (ChoroMap.new opts)
| reach_importData input self :
    reachable self -> reachable (ChoroMap.importData input self)
| reach_buildPalettes self :
    reachable self -> reachable (ChoroMap.buildPalettes self)
| reach_draw layout self :
    reachable self -> reachable (ChoroMap.draw layout self)
| reach_updateStyle self :
    reachable self -> reachable (ChoroMap.updateStyle self)
| reach_selectPalette index self :
    reachable self -> reachable (ChoroMap.selectPalette index self)
| reach_selectVariable index self self' :
    reachable self -> ChoroMap.selectVariable index self = Normal self' ->
    reachable self'.

(** Loaded data whose palettes are given by name and by colours, and a
    map that holds it, before [buildPalettes]. *)
Definition example_named_data : MapData.t :=
  MapData.mk []
    [ColorPalette.mk (Some "BuPu") None None None;
     ColorPalette.mk (Some "Blues") None None None;
     ColorPalette.mk None None (Some ["red"]) None]
    (JS.of_Z 3) "france" [] (JS.of_Z 0) None.

Definition example_named_map : ChoroMap.t :=
  ChoroMap.mk example_opts (Some example_named_data) None (JS.of_Z 0)
    (JS.of_Z 0) (JS.of_Z 0) [] None [].

(** ** The popup of the map *)

Module ChoroMapView.

(** The double quote of the HTML attributes. *)
Definition dquote : string := String "034" EmptyString.

(** ['' + x] for [x] a scalar or [undefined]. *)
Definition string_of_any `{Platform} (x : option Scalar) : string :=
  match x with
  | Some v => to_string v
  | None => "undefined"
  end.

(** [ChoroMap.getPopupContent]; [label] is [feature?.properties?.nom]. *)
Definition getPopupContent `{Platform} (self : ChoroMap.t)
    (feature : option Feature) : string :=
  match ChoroMap.dataView self with
  | None => ""
  | Some dv =>
      let label :=
        (feature ≫= properties) ≫= (fun p : gmap string Scalar => p !! "nom") in
      let v := DataView.getPopupContent dv feature in
      "<div class=" +:+ dquote +:+ "map-popup-content" +:+ dquote
      +:+ "><div class=" +:+ dquote +:+ "feature-label" +:+ dquote +:+ ">"
      +:+ string_of_any label
      +:+ "</div><div class=" +:+ dquote +:+ "popup-data-content" +:+ dquote
      +:+ ">" +:+ v +:+ "</div></div>"
  end.

End ChoroMapView.

(** ** The earlier revision of the class (src/index.ts) *)

Module IndexTs.

Module MapData.
Record t : Type := mk {
  data : gmap string number;
  colors : ColorsDef;
  labels : list string;
  palettes : option (list ColorPalette.t);
  layout : string;
  defaultOpacity : option number
}.
End MapData.

(** The fields of the class.  Of the Leaflet layer the model keeps, for
    every feature, the popup bound to it by [draw] and the path options
    last given to it; of the DOM element, the legend. *)
Record t : Type := mk {
  opts : FranceChoroMapOpts.t;
  data : option MapData.t;
  dataValues : gmap string number;
  palette : number;
  palettes : list ColorPalette.t;
  layer : option (list (Feature * option Scalar * option PathStyle));
  legend : list (option string * string)
}.

Definition new (opts : FranceChoroMapOpts.t) : t :=
  {| opts := opts; data := None; dataValues := ∅; palette := JS.of_Z 0;
     palettes := []; layer := None; legend := [] |}.

Definition loadLayout (self : t) : LayoutLoader :=
  let flavor := default "geojson" (FranceChoroMapOpts.flavor (opts self)) in
  if String.eqb flavor "geojson"
  then GetJSON (FranceChoroMapOpts.layout (opts self))
  else FetchGeobuf (FranceChoroMapOpts.layout (opts self)).

(** [buildPalettes]: an array of colours is the single palette; a number
    is the scale size at which the named palettes are resolved, with the
    loop of the later revision. *)
Definition buildPalettes `{ColorsModule} (self : t) : t :=
  match data self with
  | None => self
  | Some d =>
      match MapData.colors d with
      | ColorList colors =>
          mk (opts self) (data self) (dataValues self) (JS.of_Z 0)
             [ColorPalette.mk None None (Some colors) None]
             (layer self) (legend self)
      | ColorCount n_colors =>
          match MapData.palettes d with
          | Some defs0 =>
              let '(defs, palettes) :=
                foldl (fun '(defs, palettes) def =>
                         let '(def, palettes) :=
                           ChoroMap.buildPalette n_colors def palettes in
                         (defs ++ [def], palettes))
                      ([], palettes self) defs0 in
              mk (opts self)
                 (Some (MapData.mk (MapData.data d) (MapData.colors d)
                          (MapData.labels d) (Some defs) (MapData.layout d)
                          (MapData.defaultOpacity d)))
                 (dataValues self) (JS.of_Z 0) palettes
                 (layer self) (legend self)
          | None =>
              mk (opts self) (data self) (dataValues self) (JS.of_Z 0)
                 (palettes self) (layer self) (legend self)
          end
      end
  end.

Definition getValue `{Platform} (self : t) (feature : option Feature)
  : option number :=
  match feature with
  | Some f =>
      match properties f ≫= (fun p => p !! "code") with
      | Some id => if truthy id then dataValues self !! to_string id else None
      | None => None
      end
  | None => None
  end.

Definition style `{Platform} (self : t) (colors : list string)
    (fillOpacity : number) (feature : option Feature) : PathStyle :=
  let n_colors := JS.length colors in
  let color :=
    match getValue self feature with
    | Some v =>
        if JS.ge v (JS.of_Z 1) && JS.le v n_colors
        then JS.get colors (JS.sub v (JS.of_Z 1))
        else Some "#EEEEEE"
    | None => Some "#EEEEEE"
    end in
  {| color := color; stroke := false; fillOpacity := fillOpacity |}.

Definition defaultOpacity (self : t) : number :=
  let truthy_or (o : option number) (k : number) :=
    match o with
    | Some x => if JS.truthy x then x else k
    | None => k
    end in
  truthy_or (data self ≫= MapData.defaultOpacity)
    (truthy_or (FranceChoroMapOpts.defaultOpacity (opts self))
       (JS.Fin (6 # 10))).

Definition setStyle (f : option Feature -> PathStyle)
    (layer : list (Feature * option Scalar * option PathStyle))
  : list (Feature * option Scalar * option PathStyle) :=
  (fun e => (e.1.1, e.1.2, Some (f (Some e.1.1)))) <$> layer.

Definition updateStyle `{Platform} (self : t) : t :=
  match data self, layer self with
  | Some d, Some layer =>
      match JS.get (palettes self) (palette self) with
      | Some p =>
          match ColorPalette.colors p with
          | Some colors =>
              let fillOpacity :=
                match ColorPalette.opacity p with
                | Some o => if JS.truthy o then o else defaultOpacity self
                | None => defaultOpacity self
                end in
              let labels := MapData.labels d in
              mk (opts self) (data self) (dataValues self) (palette self)
                 (palettes self)
                 (Some (setStyle (style self colors fillOpacity) layer))
                 (imap (fun index value => (labels !! index, value)) colors)
          | None => self
          end
      | None => self
      end
  | _, _ => self
  end.

(** The popup [draw] binds to a feature: its [nom], followed by the label
    of its value when the value is truthy. *)
Definition popup_label `{Platform} (self : t) (data : MapData.t)
    (feature : Feature) : option Scalar :=
  let label := properties feature ≫= (fun p => p !! "nom") in
  match getValue self (Some feature) with
  | Some v =>
      if JS.truthy v then
        Some (SStr (ChoroMapView.string_of_any label +:+ "<br/>"
                    +:+ DataView.string_of_label
                          (JS.get (MapData.labels data)
                             (JS.sub v (JS.of_Z 1)))))
      else label
  | None => label
  end.

Definition draw `{Platform} (layout : list Feature) (data : MapData.t)
    (self : t) : t :=
  updateStyle
    (mk (opts self) (IndexTs.data self) (dataValues self) (palette self)
        (palettes self)
        (Some ((fun f => (f, popup_label self data f, None)) <$> layout))
        (legend self)).

(** The continuation of [load]. *)
Definition load `{Platform} `{ColorsModule} (input : MapData.t)
    (layout : list Feature) (self : t) : t :=
  draw layout input
    (buildPalettes
       (mk (opts self) (Some input) (MapData.data input) (palette self)
           (palettes self) (layer self) (legend self))).

End IndexTs.

(** ** The first revision of the class *)

Module FirstRevision.

Module MapData.
Record t : Type := mk {
  data : gmap string number;
  colors : list string;
  labels : list string;
  layout : string
}.
End MapData.

(** The closure [get_value] of [draw]. *)
Definition get_value `{Platform} (data : MapData.t)
    (feature : option Feature) : option number :=
  let d := MapData.data data in
  let n_colors := JS.length (MapData.colors data) in
  match feature with
  | Some f =>
      match properties f ≫= (fun p => p !! "code") with
      | Some id =>
          if truthy id then
            match d !! to_string id with
            | Some value =>
                if JS.truthy value && JS.ge value (JS.of_Z 1)
                   && JS.lt value n_colors
                then Some value else None
            | None => None
            end
          else None
      | None => None
      end
  | None => None
  end.

(** The [style] function of the layer. *)
Definition style `{Platform} (data : MapData.t) (feature : option Feature)
  : PathStyle :=
  let colors := MapData.colors data in
  let color :=
    match get_value data feature with
    | Some v => JS.get colors (JS.sub v (JS.of_Z 1))
    | None => Some "#EEEEEE"
    end in
  {| color := color; stroke := false; fillOpacity := JS.Fin (6 # 10) |}.

(** The popup bound by [onEachFeature]. *)
Definition popup_label `{Platform} (data : MapData.t) (feature : Feature)
  : option Scalar :=
  let label := properties feature ≫= (fun p => p !! "nom") in
  match get_value data (Some feature) with
  | Some v =>
      if JS.truthy v then
        Some (SStr (ChoroMapView.string_of_any label +:+ "<br/>"
                    +:+ DataView.string_of_label
                          (JS.get (MapData.labels data)
                             (JS.sub v (JS.of_Z 1)))))
      else label
  | None => label
  end.

(** What [draw] puts on the map: for every feature of the layout its
    popup and its path options, and the legend. *)
Definition draw `{Platform} (layout : list Feature) (data : MapData.t)
  : list (Feature * option Scalar * PathStyle)
    * list (option string * string) :=
  ((fun f => (f, popup_label data f, style data (Some f))) <$> layout,
   imap (fun index value => (MapData.labels data !! index, value))
        (MapData.colors data)).

End FirstRevision.

(** ** Notions used by the further properties *)

(** No character of [s] is a dollar sign. *)
Fixpoint no_dollar (s : string) : bool :=
  match s with
  | EmptyString => true
  | String c s' => negb (Ascii.eqb c "$") && no_dollar s'
  end.

(** No character of [s] is an opening brace. *)
Fixpoint no_open (s : string) : bool :=
  match s with
  | EmptyString => true
  | String c s' => negb (Ascii.eqb c "{") && no_open s'
  end.

(** The position in [labels] that a colour value names: [k - 1] for the
    integers [k] from 1 to the number of labels, none for any other
    number. *)
Definition label_index (labels : list string) (x : number) : option nat :=
  match x with
  | JS.Fin q =>
      if JS.is_integer q && (1 <=? Qfloor q)%Z
         && (Qfloor q <=? Z.of_nat (List.length labels))%Z
      then Some (Z.to_nat (Qfloor q - 1))
      else None
  | _ => None
  end.


(** [feature?.properties?.code] *)
Definition feature_code (feature : option Feature) : option Scalar :=
  (feature ≫= properties) ≫= (fun p : gmap string Scalar => p !! "code").

(** Every path of the layer that has been given options has a truthy
    fill opacity (neither 0 nor NaN) and no stroke. *)
Definition styles_visible (layer : option (list (Feature * option PathStyle)))
  : Prop :=
  ∀ l f sty, layer = Some l → (f, Some sty) ∈ l →
             JS.truthy (fillOpacity sty) = true ∧ stroke sty = false.

(** The colours and the fill opacity [updateStyle] styles with, if it
    gets as far as styling. *)
Definition style_choice (self : ChoroMap.t) : option (list string * number) :=
  match ChoroMap.data self, ChoroMap.dataView self, ChoroMap.layer self with
  | Some _, Some _, Some _ =>
      match JS.get (ChoroMap.palettes self) (ChoroMap.palette self) with
      | Some p =>
          match ColorPalette.colors p with
          | Some colors =>
              Some (colors,
                    match ColorPalette.opacity p with
                    | Some o =>
                        if JS.truthy o then o else ChoroMap.defaultOpacity self
                    | None => ChoroMap.defaultOpacity self
                    end)
          | None => None
          end
      | None => None
      end
  | _, _, _ => None
  end.

(** The state in which [selectVariable] calls [updateStyle]. *)
Definition with_variable (index : number) (v : Variable_.t) (dv : DataView.t)
    (self : ChoroMap.t) : ChoroMap.t :=
  ChoroMap.mk (ChoroMap.opts self) (ChoroMap.data self)
    (Some (DataView.setVariable v dv)) (ChoroMap.dataLayerIndex self) index
    (ChoroMap.palette self) (ChoroMap.palettes self) (ChoroMap.layer self)
    (ChoroMap.legend self).



(** A document with two variables over one layer, and the map that
    imported it and has its layer. *)
Definition example_two_input : InputMapData.t :=
  InputMapData.mk None (ColorList ["#111111"; "#222222"]) None
    (Some [Variable_.mk "a" "A" None ["low"; "high"];
           Variable_.mk "b" "B" (Some "{nom}: {_label_}") ["few"; "many"]])
    None "france" None
    (Some [LayerView.mk
             {[ "01" := {[ "a" := SNum (JS.of_Z 1); "b" := SNum (JS.of_Z 2);
                           "nom" := SStr "Ain" ]} ]}])
    None.

Definition example_two_map : ChoroMap.t :=
  @ChoroMap.load example_platform example_colors example_two_input
    [feature_of_code "01"] (ChoroMap.new example_opts).


(** A document of the first revision. *)
Definition example_first : FirstRevision.MapData.t :=
  FirstRevision.MapData.mk {[ "01" := JS.of_Z 2 ]} ["#111111"; "#222222"]
    ["low"; "high"] "france".

(** A variable with a popup template. *)
Definition example_popup_variable : Variable_.t :=
  Variable_.mk "c" "" (Some "Level: {_label_}!") ["low"; "high"].

(** * Properties *)

(** ** Strings *)

Section StringFacts.

Lemma app_cons c (a b : string) : String c a +:+ b = String c (a +:+ b).
Proof. reflexivity. Qed.

Lemma app_empty_l (a : string) : "" +:+ a = a.
Proof. reflexivity. Qed.

Lemma app_empty_r (a : string) : a +:+ "" = a.
Proof. induction a as [|c a IH]; [done|]. by rewrite app_cons, IH. Qed.

Lemma app_assoc_s (a b c : string) : (a +:+ b) +:+ c = a +:+ b +:+ c.
Proof. induction a as [|x a IH]; [done|]. by rewrite !app_cons, IH. Qed.

Lemma length_app_s (a b : string) :
  String.length (a +:+ b) = (String.length a + String.length b)%nat.
Proof. induction a as [|x a IH]; [done|]. rewrite app_cons. simpl. by rewrite IH. Qed.

Lemma drop_app_length (a b : string) : Str.drop (String.length a) (a +:+ b) = b.
Proof. induction a as [|x a IH]; [done|]. by rewrite app_cons. Qed.

Lemma drop_drop (i j : nat) (s : string) :
  Str.drop i (Str.drop j s) = Str.drop (j + i) s.
Proof.
  revert s; induction j as [|j IH]; intros s; [done|].
  destruct s as [|c s]; simpl; [by destruct i|apply IH].
Qed.

Lemma drop_split (i : nat) (s : string) : ∃ pre, s = pre +:+ Str.drop i s.
Proof.
  revert s; induction i as [|i IH]; intros s; [by exists ""|].
  destruct s as [|c s]; [by exists ""|].
  destruct (IH s) as [pre Hpre]. exists (String c pre).
  rewrite app_cons. simpl. by rewrite <- Hpre.
Qed.

Lemma length_drop_le (i : nat) (s : string) :
  (String.length (Str.drop i s) ≤ String.length s)%nat.
Proof.
  revert s; induction i as [|i IH]; intros [|c s]; simpl; try lia.
  specialize (IH s). lia.
Qed.

Lemma starts_with_app (p s : string) : Str.starts_with p (p +:+ s) = true.
Proof.
  induction p as [|c p IH]; [done|].
  rewrite app_cons. simpl. by rewrite Ascii.eqb_refl, IH.
Qed.

Lemma starts_with_inv (p s : string) :
  Str.starts_with p s = true → s = p +:+ Str.drop (String.length p) s.
Proof.
  revert s; induction p as [|c p IH]; intros s H; [done|].
  destruct s as [|d s]; [done|]. simpl in H.
  apply andb_true_iff in H as [Hc Hp]. apply Ascii.eqb_eq in Hc as ->.
  rewrite app_cons. simpl. f_equal. by apply IH.
Qed.

Lemma starts_with_weaken (p a b : string) :
  Str.starts_with p a = true → Str.starts_with p (a +:+ b) = true.
Proof.
  revert a; induction p as [|c p IH]; intros a H; [done|].
  destruct a as [|d a]; [done|]. rewrite app_cons. simpl in *.
  apply andb_true_iff in H as [-> Hp]. by rewrite IH.
Qed.

End StringFacts.

(** Appends in right-nested form, constructors pushed outside. *)
Ltac str_norm :=
  repeat first [rewrite app_assoc_s | rewrite app_cons | rewrite app_empty_l].
Ltac str_norm_in H :=
  repeat first [rewrite app_assoc_s in H | rewrite app_cons in H
               | rewrite app_empty_l in H].


(** ** The placeholder grammar *)

Section Grammar.

Lemma var_char_not_open c : var_char c = true → Ascii.eqb c "{" = false.
Proof.
  intros H. destruct (Ascii.eqb_spec c "{") as [->|]; [|done].
  by vm_compute in H.
Qed.

Lemma var_char_not_close c : var_char c = true → Ascii.eqb c "}" = false.
Proof.
  intros H. destruct (Ascii.eqb_spec c "}") as [->|]; [|done].
  by vm_compute in H.
Qed.

Lemma span_var_app (s : string) :
  ∀ name rest, span_var s = (name, rest) →
    s = name +:+ rest ∧ all_var name = true.
Proof.
  induction s as [|c s IH]; intros name rest H; simpl in H.
  - by inversion H.
  - destruct (var_char c) eqn:Hc.
    + destruct (span_var s) as [n r]. inversion H; subst.
      destruct (IH n rest eq_refl) as [-> Hn].
      split; [done|]. simpl. by rewrite Hc, Hn.
    + by inversion H.
Qed.

Lemma span_var_closed (name suf : string) :
  all_var name = true →
  span_var (name +:+ String "}" suf) = (name, String "}" suf).
Proof.
  induction name as [|c name IH]; intros H; [done|].
  simpl in H. apply andb_true_iff in H as [Hc Hn].
  rewrite app_cons. simpl. by rewrite Hc, (IH Hn).
Qed.

Lemma exec_here_Some (s m : string) :
  exec_here s = Some m ↔
  ∃ name suf, s = m +:+ suf ∧ m = "{" +:+ name +:+ "}" ∧ name ≠ ""
              ∧ all_var name = true.
Proof.
  split.
  - destruct s as [|c s1]; [done|]. unfold exec_here.
    destruct (Ascii.eqb_spec c "{") as [->|]; [|done].
    destruct (span_var s1) as [name rest] eqn:Hspan.
    apply span_var_app in Hspan as [-> Hname].
    destruct name as [|n name]; [done|]. destruct rest as [|d rest]; [done|].
    destruct (Ascii.eqb_spec d "}") as [->|]; [|done].
    intros [= <-]. exists (String n name), rest.
    split_and!; [|done..].
    by str_norm.
  - intros (name & suf & -> & -> & Hne & Hname).
    str_norm. unfold exec_here. simpl.
    rewrite (span_var_closed name suf Hname).
    by destruct name.
Qed.

(** No match starts strictly inside a match. *)
Lemma exec_here_inside (name suf : string) (j : nat) :
  all_var name = true → (j ≤ String.length name)%nat →
  exec_here (Str.drop j (name +:+ String "}" suf)) = None.
Proof.
  revert j; induction name as [|c name IH]; intros j Hname Hj.
  - simpl in Hj. by replace j with 0%nat by lia.
  - simpl in Hname. apply andb_true_iff in Hname as [Hc Hname].
    destruct j as [|j].
    + rewrite app_cons. unfold exec_here. simpl.
      by rewrite (var_char_not_open c Hc).
    + rewrite app_cons. simpl. apply IH; [done|]. simpl in Hj. lia.
Qed.

#[local] Arguments exec_here : simpl never.

Lemma match_from_skip (k : nat) (s : string) :
  match_from k s = match_from 0 (Str.drop k s).
Proof.
  revert k; induction s as [|c s IH]; intros [|k]; try done.
  simpl match_from at 1. by rewrite IH.
Qed.

Lemma match_regexpVars_unfold (s : string) :
  match_regexpVars s =
  match exec_here s with
  | Some m => m :: match_regexpVars (Str.drop (String.length m) s)
  | None =>
      match s with
      | EmptyString => []
      | String _ s' => match_regexpVars s'
      end
  end.
Proof.
  unfold match_regexpVars. destruct s as [|c s]; [done|].
  simpl match_from at 1.
  destruct (exec_here (String c s)) as [m|] eqn:Hm; [|done].
  rewrite match_from_skip. apply exec_here_Some in Hm as (n & suf & _ & -> & _).
  do 2 f_equal. rewrite app_cons. simpl. by rewrite Nat.sub_0_r.
Qed.

Lemma match_regexpVars_sound (n : nat) :
  ∀ s p, (String.length s ≤ n)%nat → p ∈ match_regexpVars s →
    ∃ i, exec_here (Str.drop i s) = Some p.
Proof.
  induction n as [|n IH]; intros s p Hlen Hin.
  - destruct s; [|simpl in Hlen; lia]. by apply elem_of_nil in Hin.
  - rewrite match_regexpVars_unfold in Hin.
    destruct (exec_here s) as [m|] eqn:Hm.
    + apply elem_of_cons in Hin as [->|Hin]; [by exists 0%nat|].
      pose proof Hm as (name & suf & Hs & -> & _)%exec_here_Some.
      apply IH in Hin as [i Hi].
      * exists (String.length ("{" +:+ name +:+ "}") + i)%nat.
        by rewrite <- drop_drop.
      * rewrite Hs, drop_app_length. rewrite Hs in Hlen.
        rewrite length_app_s, app_cons in Hlen. simpl in Hlen. lia.
    + destruct s as [|c s]; [by apply elem_of_nil in Hin|].
      apply IH in Hin as [i Hi]; [|simpl in Hlen; lia]. by exists (S i).
Qed.

Lemma match_regexpVars_complete (n : nat) :
  ∀ s p i, (String.length s ≤ n)%nat → exec_here (Str.drop i s) = Some p →
    p ∈ match_regexpVars s.
Proof.
  induction n as [|n IH]; intros s p i Hlen Hp.
  - destruct s; [|simpl in Hlen; lia]. by destruct i.
  - rewrite match_regexpVars_unfold.
    destruct (exec_here s) as [m|] eqn:Hm.
    + destruct i as [|i]; [simpl in Hp; rewrite Hp in Hm; inversion Hm; left|].
      pose proof Hm as (name & suf & Hs & Hmn & _ & Hname)%exec_here_Some.
      right. destruct (decide (i ≤ String.length name)%nat) as [Hi|Hi].
      * rewrite Hs, Hmn in Hp. str_norm_in Hp. simpl in Hp.
        rewrite exec_here_inside in Hp; done.
      * apply (IH _ _ (S i - String.length m)%nat).
        -- rewrite Hs, drop_app_length. rewrite Hs in Hlen.
           rewrite length_app_s, Hmn, app_cons in Hlen. simpl in Hlen. lia.
        -- rewrite drop_drop.
           replace (String.length m + (S i - String.length m))%nat with (S i);
             [done|].
           rewrite Hmn. str_norm. simpl. rewrite length_app_s. simpl. lia.
    + destruct s as [|c s]; [by destruct i|].
      destruct i as [|i]; [simpl in Hp; congruence|].
      apply (IH _ _ i); [simpl in Hlen; lia|done].
Qed.

(** The global match finds exactly the substrings in the language. *)
Lemma elem_of_match_regexpVars (t p : string) :
  p ∈ match_regexpVars t ↔ placeholder p ∧ substring p t.
Proof.
  split.
  - intros [i Hi]%(match_regexpVars_sound (String.length t)); [|done].
    apply exec_here_Some in Hi as (name & suf & Hd & -> & Hne & Hname).
    split; [by exists name|].
    destruct (drop_split i t) as [pre Hpre]. exists pre, suf.
    by rewrite Hpre at 1; rewrite Hd.
  - intros [(name & -> & Hne & Hname) (pre & suf & ->)].
    eapply match_regexpVars_complete with (i := String.length pre);
      [reflexivity|].
    rewrite drop_app_length. apply exec_here_Some. by exists name, suf.
Qed.

End Grammar.

(** ** The constructor of [Template] *)

Section TemplateNew.

Lemma template_new_eq (t : string) :
  Template.vars (Template.new t)
  = foldl Template.record_var [] (match_regexpVars t).
Proof. reflexivity. Qed.

Lemma record_var_keys (l : list string) :
  ∀ acc p, p ∈ (foldl Template.record_var acc l).*1 ↔ p ∈ acc.*1 ∨ p ∈ l.
Proof.
  induction l as [|m l IH]; intros acc p; simpl.
  - rewrite elem_of_nil. tauto.
  - rewrite IH, elem_of_cons. unfold Template.record_var, Template.has.
    case_bool_decide as Hm.
    + split; [tauto|]. intros [?|[->|?]]; auto.
    + rewrite fmap_app, elem_of_app. simpl. rewrite list_elem_of_singleton.
      tauto.
Qed.

Lemma record_var_NoDup (l : list string) :
  ∀ acc, NoDup acc.*1 → NoDup (foldl Template.record_var acc l).*1.
Proof.
  induction l as [|m l IH]; intros acc Hacc; [done|]. simpl. apply IH.
  unfold Template.record_var, Template.has. case_bool_decide as Hm; [done|].
  rewrite fmap_app. apply NoDup_app. split_and!; [done| |apply NoDup_singleton].
  intros x Hx [->|[]%elem_of_nil]%elem_of_cons. done.
Qed.

Lemma record_var_values (l : list string) :
  ∀ acc, Forall (fun pv => pv.2 = Str.strip_braces pv.1) acc →
         Forall (fun pv => pv.2 = Str.strip_braces pv.1) (foldl Template.record_var acc l).
Proof.
  induction l as [|m l IH]; intros acc Hacc; [done|]. simpl. apply IH.
  unfold Template.record_var. destruct (Template.has acc m); [done|].
  apply Forall_app. split; [done|]. by apply Forall_singleton.
Qed.

Lemma strip_braces_var (name suf : string) :
  all_var name = true →
  Str.strip_braces (name +:+ suf) = name +:+ Str.strip_braces suf.
Proof.
  induction name as [|c name IH]; intros H; [done|].
  simpl in H. apply andb_true_iff in H as [Hc Hn].
  rewrite !app_cons. simpl.
  by rewrite (var_char_not_open c Hc), (var_char_not_close c Hc), (IH Hn).
Qed.

Lemma strip_braces_placeholder (name : string) :
  all_var name = true → Str.strip_braces ("{" +:+ name +:+ "}") = name.
Proof.
  intros H. str_norm. simpl. rewrite (strip_braces_var _ _ H). simpl.
  apply app_empty_r.
Qed.

Lemma new_vars_keys (t p : string) :
  p ∈ (Template.vars (Template.new t)).*1 ↔ placeholder p ∧ substring p t.
Proof.
  rewrite template_new_eq, record_var_keys, elem_of_match_regexpVars.
  change (([] : list (string * string)).*1) with (@nil string).
  rewrite elem_of_nil. tauto.
Qed.

Lemma new_vars_NoDup (t : string) : NoDup (Template.vars (Template.new t)).*1.
Proof. rewrite template_new_eq. apply record_var_NoDup. constructor. Qed.

(** C3. For every template string, the constructor records as
    placeholders exactly the distinct substrings of the template that
    match [regexpVars], each once, and maps each to the string left when
    its braces are deleted, which is the name between them. *)
Theorem template_new_vars (t : string) :
  (∀ p, p ∈ (Template.vars (Template.new t)).*1
        ↔ placeholder p ∧ substring p t)
  ∧ NoDup (Template.vars (Template.new t)).*1
  ∧ (∀ p v, (p, v) ∈ Template.vars (Template.new t) →
            v = Str.strip_braces p ∧ p = "{" +:+ v +:+ "}").
Proof.
  split_and!.
  - apply new_vars_keys.
  - apply new_vars_NoDup.
  - intros p v Hpv.
    pose proof (record_var_values (match_regexpVars t) [] (Forall_nil_2 _)) as Hv.
    rewrite <- template_new_eq, Forall_forall in Hv.
    pose proof (Hv _ Hpv) as Hstrip.
    simpl in Hstrip. split; [done|].
    assert (p ∈ (Template.vars (Template.new t)).*1) as Hp.
    { apply list_elem_of_fmap. by exists (p, v). }
    apply new_vars_keys in Hp as [(name & -> & _ & Hname) _].
    by rewrite Hstrip, (strip_braces_placeholder _ Hname).
Qed.

End TemplateNew.

(** ** Occurrences of a placeholder *)

Section Occurrences.

#[local] Arguments Ascii.eqb : simpl never.

Lemma occurrences_cons (p : string) c (s : string) :
  occurrences p (String c s)
  = ((if Str.starts_with p (String c s) then 1 else 0) + occurrences p s)%nat.
Proof. reflexivity. Qed.


(** A placeholder does not start inside the name or at the closing brace
    of a placeholder. *)
Lemma occurrences_skip_name (p' name suf : string) :
  all_var name = true →
  occurrences (String "{" p') (name +:+ String "}" suf)
  = occurrences (String "{" p') suf.
Proof.
  induction name as [|c name IH]; intros Hname; [done|].
  simpl in Hname. apply andb_true_iff in Hname as [Hc Hname].
  rewrite app_cons. simpl.
  rewrite Ascii.eqb_sym, (var_char_not_open c Hc). simpl. by apply IH.
Qed.




Lemma split_first_Some (p s pre suf : string) :
  Str.split_first p s = Some (pre, suf) → s = pre +:+ p +:+ suf.
Proof.
  revert pre; induction s as [|c s IH]; intros pre; simpl.
  - destruct (Str.starts_with p "") eqn:Hp; [|done].
    intros [= <- <-]. by apply starts_with_inv in Hp.
  - destruct (Str.starts_with p (String c s)) eqn:Hp.
    + intros [= <- <-]. by apply starts_with_inv in Hp.
    + destruct (Str.split_first p s) as [[pre' suf']|]; [|done].
      intros [= <- <-]. rewrite app_cons. f_equal. by apply IH.
Qed.


Lemma occurrences_self (p x : string) :
  placeholder p → occurrences p (p +:+ x) = S (occurrences p x).
Proof.
  intros (np & -> & _ & Hnp).
  pose proof (starts_with_app ("{" +:+ np +:+ "}") x) as Hs.
  revert Hs. str_norm. intros Hs.
  change ("}" +:+ x) with (String "}" x) in *.
  rewrite occurrences_cons, Hs.
  by rewrite (occurrences_skip_name _ _ _ Hnp).
Qed.

(** [split_first] cuts at the first occurrence: the placeholder starts
    nowhere before it, and every other occurrence lies in the text after
    it. *)
Lemma split_first_placeholder (p s pre suf : string) :
  placeholder p → Str.split_first p s = Some (pre, suf) →
  occurrences p (pre +:+ p) = 1%nat
  ∧ occurrences p s = S (occurrences p suf).
Proof.
  intros Hp. pose proof (fun x => occurrences_self p x Hp) as Hself.
  assert (Str.starts_with p "" = false) as Hne.
  { destruct Hp as (np & -> & _ & _). by str_norm. }
  revert pre suf; induction s as [|c s IH]; intros pre suf.
  - simpl. by rewrite Hne.
  - simpl Str.split_first. destruct (Str.starts_with p (String c s)) eqn:Hs.
    + apply starts_with_inv in Hs.
      remember (Str.drop (String.length p) (String c s)) as x eqn:Hx.
      intros [= <- <-]. rewrite Hs, app_empty_l. split; [|by apply Hself].
      rewrite <- (app_empty_r p) at 2. by rewrite Hself.
    + destruct (Str.split_first p s) as [[pre' suf']|] eqn:Hsplit; [|done].
      intros [= <- <-]. destruct (IH _ _ eq_refl) as [IH1 IH2].
      apply split_first_Some in Hsplit as Hs'.
      rewrite app_cons, !occurrences_cons, Hs, IH1, IH2.
      split; [|done].
      destruct (Str.starts_with p (String c (pre' +:+ p))) eqn:Hp'; [|done].
      apply (starts_with_weaken _ _ suf') in Hp'.
      rewrite app_cons, app_assoc_s, <- Hs' in Hp'. congruence.
Qed.

End Occurrences.

(** ** [Template.bind] *)

Section TemplateBind.

Context `{Platform}.



Lemma bind_unbound (d : gmap string Scalar) (l : list (string * string)) :
  (∀ q n, (q, n) ∈ l → d !! n = None) →
  ∀ txt, foldl (Template.substitute d) txt l = txt.
Proof.
  induction l as [|[q n] l IH]; intros Hl txt; [done|]. simpl.
  rewrite (Hl q n) by apply list_elem_of_here.
  apply IH. intros q' n' Hin. apply (Hl q' n'). by apply list_elem_of_further.
Qed.

Lemma bind_single (d : gmap string Scalar) (p name : string) (v : Scalar)
    (l : list (string * string)) :
  NoDup l.*1 → (p, name) ∈ l → d !! name = Some v →
  (∀ q n, (q, n) ∈ l → q ≠ p → d !! n = None) →
  ∀ txt, foldl (Template.substitute d) txt l = Str.replace txt p (to_string v).
Proof.
  induction l as [|[q n] l IH]; intros Hnd Hin Hv Hothers txt.
  - by apply elem_of_nil in Hin.
  - apply NoDup_cons in Hnd as [Hql Hnd]. simpl in Hql.
    apply elem_of_cons in Hin as [[= <- <-]|Hin]; simpl.
    + rewrite Hv. apply bind_unbound. intros q' n' Hin'.
      apply (Hothers q' n'); [by apply list_elem_of_further|].
      intros ->. apply Hql. apply list_elem_of_fmap. by exists (p, n').
    + assert (q ≠ p) as Hne.
      { intros ->. apply Hql. apply list_elem_of_fmap. by exists (p, name). }
      rewrite (Hothers q n) by (done || apply list_elem_of_here).
      apply IH; [done..|]. intros q' n' Hin'. apply Hothers.
      by apply list_elem_of_further.
Qed.


End TemplateBind.

Lemma template_new_vars_witness :
  "x" = Str.strip_braces "{x}" ∧ "{x}" = "{" +:+ "x" +:+ "}".
Proof.
  apply (proj2 (proj2 (template_new_vars "a{x}b{x}")) "{x}" "x").
  vm_compute. apply list_elem_of_here.
Defined.


(** C1. On a template that repeats a placeholder, [bind] leaves the second
    occurrence in place, where the specification has every occurrence
    replaced. *)
Theorem bind_repeated_placeholder `{Platform} :
  Template.bind (Template.new "{a}{a}") {[ "a" := SStr "x" ]} = "x{a}"
  ∧ bind_every_occurrence "{a}{a}" {[ "a" := SStr "x" ]} = "xx".
Proof. split; reflexivity. Qed.

(** ** Numbers *)

Section Numbers.

Lemma Qfloor_sub_1 (q : Q) : Qfloor (q - 1) = (Qfloor q - 1)%Z.
Proof.
  destruct q as [n d]. unfold Qfloor, Qminus, Qplus, Qopp. simpl.
  rewrite Pos.mul_1_r, Z.mul_1_r.
  replace (n + Z.neg d)%Z with (n + (-1) * Z.pos d)%Z by lia.
  rewrite Z.div_add by lia. lia.
Qed.

Lemma is_integer_sub_1 (q : Q) : JS.is_integer (q - 1) = JS.is_integer q.
Proof.
  destruct q as [n d]. unfold JS.is_integer, Qminus, Qplus, Qopp. simpl.
  rewrite Pos.mul_1_r, Z.mul_1_r.
  replace (n + Z.neg d)%Z with (n + (-1) * Z.pos d)%Z by lia.
  by rewrite Z.mod_add by lia.
Qed.

Lemma is_integer_floor (q : Q) :
  JS.is_integer q = true → Qnum q = (Qfloor q * Z.pos (Qden q))%Z.
Proof.
  destruct q as [n d]. unfold JS.is_integer, Qfloor. simpl.
  intros Hm%Z.eqb_eq. pose proof (Z.div_mod n (Z.pos d)). lia.
Qed.

Lemma Qle_bool_of_Z_r (q : Q) (z : Z) :
  Qle_bool q (inject_Z z) = true → (Qfloor q ≤ z)%Z.
Proof.
  destruct q as [n d]. unfold Qle_bool, Qfloor, inject_Z. simpl.
  intros Hle%Z.leb_le. rewrite Z.mul_1_r in Hle.
  apply Z.div_le_upper_bound; lia.
Qed.

Lemma Qle_bool_of_Z_l (q : Q) (z : Z) :
  Qle_bool (inject_Z z) q = true ↔ (z ≤ Qfloor q)%Z.
Proof.
  destruct q as [n d]. unfold Qle_bool, Qfloor, inject_Z. simpl.
  rewrite Z.leb_le, Z.mul_1_r. split; intros Hle.
  - apply Z.div_le_lower_bound; lia.
  - pose proof (Z.mul_div_le n (Z.pos d)). nia.
Qed.

Lemma Qle_bool_integer_r (q : Q) (z : Z) :
  JS.is_integer q = true →
  Qle_bool q (inject_Z z) = true ↔ (Qfloor q ≤ z)%Z.
Proof.
  intros Hq. split; [apply Qle_bool_of_Z_r|].
  apply is_integer_floor in Hq. destruct q as [n d]. simpl in *.
  unfold Qle_bool, inject_Z. simpl. rewrite Z.leb_le, Z.mul_1_r. nia.
Qed.

Lemma Qle_bool_integer_r_b (q : Q) (z : Z) :
  JS.is_integer q = true → Qle_bool q (inject_Z z) = (Qfloor q <=? z)%Z.
Proof.
  intros Hq. apply Bool.eq_iff_eq_true.
  by rewrite Qle_bool_integer_r, Z.leb_le.
Qed.

Lemma Qle_bool_of_Z_l_b (q : Q) (z : Z) :
  Qle_bool (inject_Z z) q = (z <=? Qfloor q)%Z.
Proof.
  apply Bool.eq_iff_eq_true. by rewrite Qle_bool_of_Z_l, Z.leb_le.
Qed.

Lemma Qeq_bool_integer_0 (q : Q) :
  JS.is_integer q = true → Qeq_bool q 0 = (Qfloor q =? 0)%Z.
Proof.
  intros Hq%is_integer_floor. destruct q as [n d]. simpl in *.
  unfold Qeq_bool. simpl. rewrite Z.mul_1_r.
  apply Bool.eq_iff_eq_true. rewrite Z.eqb_eq.
  destruct (Z.eqb_spec n 0); split; intros; try done; nia.
Qed.

(** [a[x]] is an element exactly when [x] is an integer index below the
    length. *)
Lemma get_integer {A : Type} (a : list A) (q : Q) :
  JS.is_integer q = true → (0 ≤ Qfloor q)%Z →
  JS.get a (JS.Fin q) = a !! Z.to_nat (Qfloor q).
Proof.
  intros Hq Hk. unfold JS.get. rewrite Hq. simpl.
  change 0%Q with (inject_Z 0). rewrite Qle_bool_of_Z_l_b.
  by destruct (Z.leb_spec 0 (Qfloor q)); [|lia].
Qed.

Lemma get_not_integer {A : Type} (a : list A) (q : Q) :
  JS.is_integer q = false → JS.get a (JS.Fin q) = None.
Proof. intros Hq. unfold JS.get. by rewrite Hq. Qed.

Lemma get_of_nat {A : Type} (a : list A) (i : nat) :
  JS.get a (JS.of_nat i) = a !! i.
Proof.
  unfold JS.of_nat, JS.of_Z. rewrite get_integer.
  - unfold Qfloor, inject_Z. simpl. by rewrite Z.div_1_r, Nat2Z.id.
  - unfold JS.is_integer, inject_Z. simpl. by rewrite Z.mod_1_r.
  - unfold Qfloor, inject_Z. simpl. rewrite Z.div_1_r. lia.
Qed.

End Numbers.

(** ** DataView *)

Section DataViewFacts.

Context `{Platform}.

#[local] Arguments JS.get : simpl never.
#[local] Arguments Qfloor : simpl never.
#[local] Arguments Qminus : simpl never.

(** The label the constructor stores is the one the specification
    describes. *)
Lemma colorLabel_label_at (variable : Variable_.t) (x : number) :
  default "" (DataView.colorLabel variable x)
  = label_at (Variable_.labels variable) x.
Proof.
  unfold DataView.colorLabel, label_at.
  destruct x as [| | |q]; try done.
  unfold JS.truthy, JS.gt, JS.lt, JS.le, JS.length, JS.of_nat, JS.of_Z, JS.sub.
  destruct (JS.is_integer q) eqn:Hq.
  - rewrite (Qeq_bool_integer_0 _ Hq), !(Qle_bool_integer_r_b _ _ Hq).
    change (q - inject_Z 1)%Q with (q - 1)%Q.
    destruct (Z.eqb_spec (Qfloor q) 0) as [Hz|Hz]; simpl.
    { rewrite Hz. by destruct (Z.of_nat _). }
    destruct (Z.leb_spec (Qfloor q) 0); simpl.
    { by destruct (Z.leb_spec 1 (Qfloor q)); [lia|]. }
    destruct (Z.leb_spec 1 (Qfloor q)); [|lia]. simpl.
    destruct (Z.leb_spec (Qfloor q) (Z.of_nat (List.length (Variable_.labels variable))));
      [|done].
    rewrite get_integer.
    + by rewrite Qfloor_sub_1.
    + by rewrite is_integer_sub_1.
    + rewrite Qfloor_sub_1. lia.
  - simpl. change (q - inject_Z 1)%Q with (q - 1)%Q.
    rewrite get_not_integer by (by rewrite is_integer_sub_1).
    by repeat case_match.
Qed.

Lemma updateVariable_data (dv : DataView.t) :
  DataView.data (DataView.updateVariable dv) = DataView.data dv.
Proof. unfold DataView.updateVariable. by repeat case_match. Qed.


(** C9. The constructor gives the record of every feature a ["_label_"]
    entry when the colour attribute of the variable is present and
    truthy: the label at the 1-indexed colour value, or the empty string
    when the value is not one of 1 .. the number of labels.  When the
    attribute is absent, zero or false the record is copied as it is. *)
Theorem dataview_new_label (data : LayerData) (variable : Variable_.t)
    (id : string) (record : gmap string Scalar) :
  data !! id = Some record →
  ∃ attributes,
    DataView.data (DataView.new data variable) !! id = Some attributes
    ∧ match record !! Variable_.color variable with
      | Some color =>
          if truthy color
          then attributes
               = <["_label_" :=
                     SStr (label_at (Variable_.labels variable)
                             (to_number color))]> record
          else attributes = record
      | None => attributes = record
      end
    ∧ (record !! Variable_.color variable = None → attributes = record)
    ∧ (∀ q, record !! Variable_.color variable = Some (SNum (JS.Fin q)) →
            (q == 0)%Q → attributes = record)
    ∧ (record !! Variable_.color variable = Some (SBool false) →
       attributes = record).
Proof.
  intros Hrec. exists (DataView.attributes_of variable record).
  unfold DataView.new. rewrite updateVariable_data. simpl.
  rewrite lookup_fmap, Hrec. simpl. split; [done|].
  unfold DataView.attributes_of. split_and!.
  - destruct (record !! Variable_.color variable) as [color|]; [|done].
    destruct (truthy color); [|done]. by rewrite colorLabel_label_at.
  - by intros ->.
  - intros q -> Hq. simpl. apply Qeq_bool_iff in Hq. by rewrite Hq.
  - by intros ->.
Qed.

End DataViewFacts.

Lemma dataview_new_label_witness :
  ∃ attributes,
    DataView.data
      (@DataView.new example_platform
         {[ "01" := {[ "c" := SNum (JS.of_Z 2) ]} ]}
         (Variable_.mk "c" "" None ["low"; "high"])) !! "01"
    = Some attributes
    ∧ attributes = <["_label_" := SStr "high"]> {[ "c" := SNum (JS.of_Z 2) ]}.
Proof.
  assert (({[ "01" := {[ "c" := SNum (JS.of_Z 2) ]} ]} : LayerData) !! "01"
          = Some {[ "c" := SNum (JS.of_Z 2) ]}) as Hrec by (vm_compute; reflexivity).
  destruct (@dataview_new_label example_platform _
              (Variable_.mk "c" "" None ["low"; "high"]) _ _ Hrec)
    as (attributes & Hlookup & Hlabel & _).
  exists attributes. split; [exact Hlookup|].
  vm_compute in Hlabel. vm_compute. exact Hlabel.
Defined.

(** ** The style function *)

Section Style.

Context `{Platform}.

#[local] Arguments JS.get : simpl never.
#[local] Arguments Qfloor : simpl never.
#[local] Arguments Qminus : simpl never.

(** What [updateStyle] does when it gets as far as a palette with
    colours. *)
Lemma updateStyle_selected (self : ChoroMap.t) d dv layer0 p colors :
  ChoroMap.data self = Some d → ChoroMap.dataView self = Some dv →
  ChoroMap.layer self = Some layer0 →
  JS.get (ChoroMap.palettes self) (ChoroMap.palette self) = Some p →
  ColorPalette.colors p = Some colors →
  ∃ fillOpacity,
    ChoroMap.layer (ChoroMap.updateStyle self)
    = Some (ChoroMap.setStyle (ChoroMap.style self colors fillOpacity) layer0).
Proof.
  intros Hd Hdv Hl Hp Hc. unfold ChoroMap.updateStyle.
  rewrite Hd, Hdv, Hl, Hp, Hc. by eexists.
Qed.

(** C4, as the code has it.  The style function that [updateStyle] gives
    to the layer colours a feature with [colors[v - 1]] of the selected
    palette when its colour value [v] is defined and [1 <= v <= n], and
    with ["#EEEEEE"] in every other case.  For an integral [v] the index
    read is below [n] and the colour is that element of the palette; for
    a [v] in the range that is not integral the array has no element at
    [v - 1] and the colour is undefined. *)
Theorem updateStyle_style_color (self : ChoroMap.t) d dv layer0 p colors :
  ChoroMap.data self = Some d → ChoroMap.dataView self = Some dv →
  ChoroMap.layer self = Some layer0 →
  JS.get (ChoroMap.palettes self) (ChoroMap.palette self) = Some p →
  ColorPalette.colors p = Some colors →
  ∃ fillOpacity,
    ChoroMap.layer (ChoroMap.updateStyle self)
    = Some (ChoroMap.setStyle (ChoroMap.style self colors fillOpacity) layer0)
    ∧ ∀ feature,
        let n := List.length colors in
        let assigned := color (ChoroMap.style self colors fillOpacity feature) in
        (∀ q, ChoroMap.getValue self feature = Some (JS.Fin q) →
              (1 <= q)%Q → (q <= inject_Z (Z.of_nat n))%Q →
              assigned = JS.get colors (JS.Fin (q - 1))
              ∧ (JS.is_integer q = true →
                 ∃ c, (Z.to_nat (Qfloor q - 1) < n)%nat
                      ∧ colors !! Z.to_nat (Qfloor q - 1) = Some c
                      ∧ assigned = Some c)
              ∧ (JS.is_integer q = false → assigned = None))
        ∧ (ChoroMap.getValue self feature = None → assigned = Some "#EEEEEE")
        ∧ (∀ v, ChoroMap.getValue self feature = Some v →
                JS.ge v (JS.of_Z 1) && JS.le v (JS.of_nat n) = false →
                assigned = Some "#EEEEEE").
Proof.
  intros Hd Hdv Hl Hp Hc.
  destruct (updateStyle_selected self d dv layer0 p colors) as [fo Hfo];
    [done..|].
  exists fo. split; [done|]. intros feature n assigned.
  subst assigned. unfold ChoroMap.style. simpl. split_and!.
  - intros q -> H1 Hn. unfold JS.ge, JS.length, JS.of_nat, JS.of_Z. simpl.
    apply Qle_bool_iff in H1 as H1b. apply Qle_bool_iff in Hn as Hnb.
    change (Qle_bool (inject_Z 1) q) with (Qle_bool 1 q).
    rewrite H1b. fold n. rewrite Hnb. simpl.
    change (q - inject_Z 1)%Q with (q - 1)%Q. split_and!; [done| |].
    + intros Hq.
      assert (1 ≤ Qfloor q)%Z as Hk1 by (by apply Qle_bool_of_Z_l).
      assert (Qfloor q ≤ Z.of_nat n)%Z as Hkn by (by apply Qle_bool_of_Z_r).
      assert (Z.to_nat (Qfloor q - 1) < n)%nat as Hlt by lia.
      destruct (lookup_lt_is_Some_2 colors _ Hlt) as [c Hcol].
      exists c. split_and!; [done..|].
      rewrite get_integer.
      * by rewrite Qfloor_sub_1.
      * by rewrite is_integer_sub_1.
      * rewrite Qfloor_sub_1. lia.
    + intros Hq. apply get_not_integer. by rewrite is_integer_sub_1.
  - by intros ->.
  - intros v -> Hv. unfold JS.length. fold n. by rewrite Hv.
Qed.

End Style.

Lemma updateStyle_style_color_witness :
  ∃ fillOpacity,
    ChoroMap.layer
      (@ChoroMap.updateStyle example_platform (example_map (JS.of_Z 2)))
    = Some (ChoroMap.setStyle
              (@ChoroMap.style example_platform (example_map (JS.of_Z 2))
                 ["#111111"; "#222222"] fillOpacity)
              [(feature_of_code "01",
                Some {| color := Some "#222222"; stroke := false;
                        fillOpacity := JS.Fin (6 # 10) |})])
    ∧ color (@ChoroMap.style example_platform (example_map (JS.of_Z 2))
               ["#111111"; "#222222"] fillOpacity
               (Some (feature_of_code "01")))
      = Some "#222222".
Proof.
  destruct (@updateStyle_style_color example_platform
              (example_map (JS.of_Z 2))
              (MapData.mk
                 [Variable_.mk "c" "" None ["low"; "high"]]
                 [ColorPalette.mk None None (Some ["#111111"; "#222222"]) None]
                 (JS.of_nat 2) "france"
                 [LayerView.mk {[ "01" := {[ "c" := SNum (JS.of_Z 2) ]} ]}]
                 (JS.of_Z 0) None)
              (@DataView.new example_platform
                 {[ "01" := {[ "c" := SNum (JS.of_Z 2) ]} ]}
                 (Variable_.mk "c" "" None ["low"; "high"]))
              [(feature_of_code "01",
                Some {| color := Some "#222222"; stroke := false;
                        fillOpacity := JS.Fin (6 # 10) |})]
              (ColorPalette.mk None None (Some ["#111111"; "#222222"]) None)
              ["#111111"; "#222222"])
    as (fo & Hlayer & Hcolor); try (vm_compute; reflexivity).
  exists fo. split; [exact Hlayer|].
  destruct (Hcolor (Some (feature_of_code "01"))) as (Hin & _).
  destruct (Hin 2%Q) as (_ & Hint & _).
  - vm_compute. reflexivity.
  - vm_compute. discriminate.
  - vm_compute. discriminate.
  - destruct (Hint eq_refl) as (c & _ & Hc & Hassigned).
    vm_compute in Hc. rewrite Hassigned. symmetry. exact Hc.
Defined.

(** C4, counterexample.  The colour value 3/2 lies between 1 and the two
    colours of the palette; the style function reads [colors[1/2]], which
    is no element of the array, and the feature gets no colour: neither a
    colour of the palette nor the default. *)
Lemma style_fractional_value_undefined :
  ChoroMap.getValue (H := example_platform) (example_map (JS.Fin (3 # 2)))
    (Some (feature_of_code "01")) = Some (JS.Fin (3 # 2))
  ∧ (1 <= 3 # 2)%Q ∧ (3 # 2 <= 2)%Q
  ∧ ChoroMap.palettes (example_map (JS.Fin (3 # 2)))
    = [ColorPalette.mk None None (Some ["#111111"; "#222222"]) None]
  ∧ ChoroMap.layer (example_map (JS.Fin (3 # 2)))
    = Some [(feature_of_code "01",
             Some {| color := None; stroke := false;
                     fillOpacity := JS.Fin (6 # 10) |})].
Proof.
  split_and!; try (vm_compute; reflexivity); vm_compute; discriminate.
Qed.

(** ** selectVariable and loadLayout *)

Section Select.

Context `{Platform}.

#[local] Arguments JS.get : simpl never.

Lemma updateStyle_fields (self : ChoroMap.t) :
  ChoroMap.opts (ChoroMap.updateStyle self) = ChoroMap.opts self
  ∧ ChoroMap.data (ChoroMap.updateStyle self) = ChoroMap.data self
  ∧ ChoroMap.dataView (ChoroMap.updateStyle self) = ChoroMap.dataView self
  ∧ ChoroMap.dataLayerIndex (ChoroMap.updateStyle self)
    = ChoroMap.dataLayerIndex self
  ∧ ChoroMap.variableIndex (ChoroMap.updateStyle self)
    = ChoroMap.variableIndex self
  ∧ ChoroMap.palette (ChoroMap.updateStyle self) = ChoroMap.palette self
  ∧ ChoroMap.palettes (ChoroMap.updateStyle self) = ChoroMap.palettes self.
Proof. unfold ChoroMap.updateStyle. by repeat case_match. Qed.

Lemma ge_of_Z (a b : Z) : JS.ge (JS.of_Z a) (JS.of_Z b) = (b <=? a)%Z.
Proof.
  unfold JS.ge, JS.le, JS.of_Z, Qle_bool. simpl. by rewrite !Z.mul_1_r.
Qed.

Lemma le_length_pred {A : Type} (i : Z) (a : list A) :
  JS.le (JS.of_Z i) (JS.sub (JS.length a) (JS.of_Z 1))
  = (i <=? Z.of_nat (List.length a) - 1)%Z.
Proof.
  unfold JS.le, JS.sub, JS.length, JS.of_nat, JS.of_Z, Qle_bool. simpl.
  rewrite !Z.mul_1_r. f_equal.
Qed.

Lemma get_of_Z {A : Type} (a : list A) (i : Z) :
  (0 ≤ i)%Z → JS.get a (JS.of_Z i) = a !! Z.to_nat i.
Proof.
  intros Hi. rewrite <- (Z2Nat.id i) at 1 by done. apply get_of_nat.
Qed.


(** C7. The format [loadLayout] asks for depends on [opts.flavor] alone:
    JSON when the flavor is ['geojson'] or unset, and for every other
    flavor the layout fetched as a binary buffer for the geobuf codec. *)
Theorem loadLayout_flavor (self : ChoroMap.t) :
  let opts := ChoroMap.opts self in
  (FranceChoroMapOpts.flavor opts = None
   ∨ FranceChoroMapOpts.flavor opts = Some "geojson" →
   ChoroMap.loadLayout self = GetJSON (FranceChoroMapOpts.layout opts))
  ∧ (∀ flavor, FranceChoroMapOpts.flavor opts = Some flavor →
               flavor ≠ "geojson" →
               ChoroMap.loadLayout self
               = FetchGeobuf (FranceChoroMapOpts.layout opts)).
Proof.
  unfold ChoroMap.loadLayout. split.
  - by intros [-> | ->].
  - intros flavor -> Hne. simpl. by apply String.eqb_neq in Hne as ->.
Qed.

End Select.


Lemma loadLayout_flavor_witness :
  ChoroMap.loadLayout (ChoroMap.new example_opts) = GetJSON "france.json"
  ∧ ChoroMap.loadLayout
      (ChoroMap.new
         (FranceChoroMapOpts.mk None None "data.json" "france.pbf"
            (Some "geobuf") None None))
    = FetchGeobuf "france.pbf".
Proof.
  split.
  - apply (proj1 (loadLayout_flavor (ChoroMap.new example_opts))).
    left. reflexivity.
  - apply (proj2 (loadLayout_flavor
                    (ChoroMap.new
                       (FranceChoroMapOpts.mk None None "data.json"
                          "france.pbf" (Some "geobuf") None None)))
             "geobuf"); [reflexivity|discriminate].
Defined.

(** ** importData *)

Section ImportData.

Context `{Platform}.

Lemma importData_fields (input : InputMapData.t) (self : ChoroMap.t) :
  ChoroMap.opts (ChoroMap.importData input self) = ChoroMap.opts self
  ∧ ChoroMap.palettes (ChoroMap.importData input self) = ChoroMap.palettes self
  ∧ ChoroMap.palette (ChoroMap.importData input self) = JS.of_Z 0
  ∧ ChoroMap.layer (ChoroMap.importData input self) = ChoroMap.layer self.
Proof. unfold ChoroMap.importData. by repeat case_match. Qed.


End ImportData.


(** ** buildPalettes *)

Section BuildPalettes.

Context `{ColorsModule}.

Lemma buildPalette_resolved (n_colors : number) (def : ColorPalette.t)
    (palettes : list ColorPalette.t) :
  ChoroMap.buildPalette n_colors def palettes
  = (default def (resolved_palette n_colors def),
     palettes ++ option_list (resolved_palette n_colors def)).
Proof.
  unfold ChoroMap.buildPalette, resolved_palette.
  destruct (ColorPalette.colors def) as [cs|]; [done|].
  destruct (ColorPalette.name def) as [name|]; [|by rewrite app_nil_r].
  destruct (decide (name = "")) as [->|Hne]; [by rewrite app_nil_r|].
  apply String.eqb_neq in Hne as ->. simpl.
  destruct (get_palette name n_colors); [done|by rewrite app_nil_r].
Qed.

Lemma buildPalettes_fold (n_colors : number) (defs : list ColorPalette.t) :
  ∀ done_defs palettes,
    foldl (fun '(defs, palettes) def =>
             let '(def, palettes) :=
               ChoroMap.buildPalette n_colors def palettes in
             (defs ++ [def], palettes))
          (done_defs, palettes) defs
    = (done_defs
         ++ ((fun def => default def (resolved_palette n_colors def)) <$> defs),
       palettes ++ omap (resolved_palette n_colors) defs).
Proof.
  induction defs as [|def defs IH]; intros done_defs palettes; simpl.
  - by rewrite !app_nil_r.
  - rewrite buildPalette_resolved, IH, <- !(assoc_L (++)). simpl.
    by destruct (resolved_palette n_colors def).
Qed.

Lemma buildPalettes_no_data (self : ChoroMap.t) :
  ChoroMap.data self = None → ChoroMap.buildPalettes self = self.
Proof. intros Hd. unfold ChoroMap.buildPalettes. by rewrite Hd. Qed.

Lemma buildPalettes_palettes (self : ChoroMap.t) (d : MapData.t) :
  ChoroMap.data self = Some d →
  ChoroMap.palettes (ChoroMap.buildPalettes self)
  = ChoroMap.palettes self
      ++ omap (resolved_palette (MapData.n_colors d)) (MapData.palettes d).
Proof.
  intros Hd. unfold ChoroMap.buildPalettes. rewrite Hd.
  by rewrite buildPalettes_fold.
Qed.

(** C5. [buildPalettes] appends to the palette list, in the order of the
    definitions of the loaded data: each definition that carries colours,
    as it is; each definition that carries only a name, with the colours
    that the internal palettes have for this name at the scale size
    [n_colors].  A definition whose name is unknown at that size, or that
    has neither colours nor name, adds nothing.  Without loaded data the
    map is left as it is. *)
Theorem buildPalettes_resolves (self : ChoroMap.t) :
  (ChoroMap.data self = None → ChoroMap.buildPalettes self = self)
  ∧ (∀ d, ChoroMap.data self = Some d →
       let n := MapData.n_colors d in
       ChoroMap.palettes (ChoroMap.buildPalettes self)
       = ChoroMap.palettes self ++ omap (resolved_palette n) (MapData.palettes d)
       ∧ ∀ def,
           (∀ cs, ColorPalette.colors def = Some cs →
                  resolved_palette n def = Some def)
           ∧ (∀ name cc,
                ColorPalette.colors def = None →
                ColorPalette.name def = Some name → name ≠ "" →
                get_palette name n = Some cc →
                resolved_palette n def
                = Some (ColorPalette.mk (Some name) (ColorPalette.label def)
                          (Some cc) (ColorPalette.opacity def)))
           ∧ (∀ name,
                ColorPalette.colors def = None →
                ColorPalette.name def = Some name →
                get_palette name n = None →
                resolved_palette n def = None)
           ∧ (ColorPalette.colors def = None →
              ColorPalette.name def = None →
              resolved_palette n def = None)).
Proof.
  split.
  - apply buildPalettes_no_data.
  - intros d Hd n. split.
    + by apply buildPalettes_palettes.
    + intros def. unfold resolved_palette. split_and!.
      * by intros cs ->.
      * intros name cc -> -> Hne ->. by rewrite decide_False.
      * intros name -> -> ->. by destruct (decide _).
      * by intros -> ->.
Qed.

Lemma resolved_palette_defined (n_colors : number) (def p : ColorPalette.t) :
  resolved_palette n_colors def = Some p → is_Some (ColorPalette.colors p).
Proof.
  unfold resolved_palette.
  destruct (ColorPalette.colors def) as [cs|] eqn:Hcs.
  - intros [= <-]. by rewrite Hcs.
  - repeat case_match; try done. by intros [= <-].
Qed.

Lemma buildPalettes_defined (self : ChoroMap.t) :
  palettes_defined (ChoroMap.palettes self) →
  palettes_defined (ChoroMap.palettes (ChoroMap.buildPalettes self)).
Proof.
  intros Hself. destruct (ChoroMap.data self) as [d|] eqn:Hd.
  - rewrite (buildPalettes_palettes self d Hd).
    apply Forall_app. split; [done|]. apply Forall_forall.
    intros p (def & _ & Hp)%list_elem_of_omap.
    by apply resolved_palette_defined in Hp.
  - by rewrite (buildPalettes_no_data self Hd).
Qed.

End BuildPalettes.

Lemma buildPalettes_resolves_witness :
  ChoroMap.palettes (@ChoroMap.buildPalettes example_colors example_named_map)
  = [ColorPalette.mk (Some "BuPu") None
       (Some ["#e0ecf4"; "#9ebcda"; "#8856a7"]) None;
     ColorPalette.mk None None (Some ["red"]) None].
Proof.
  rewrite (proj1 (proj2 (@buildPalettes_resolves example_colors
                           example_named_map)
                    example_named_data eq_refl)).
  vm_compute. reflexivity.
Defined.

(** ** The palettes of a map *)

Section Palettes.

Context `{Platform} `{ColorsModule}.

Lemma get_elem_of {A : Type} (a : list A) (x : number) (p : A) :
  JS.get a x = Some p → p ∈ a.
Proof.
  unfold JS.get. destruct x as [| | |q]; try done.
  destruct (_ && _); [|done]. intros Hp. apply list_elem_of_lookup. eauto.
Qed.

Lemma selectVariable_palettes (index : number) (self self' : ChoroMap.t) :
  ChoroMap.selectVariable index self = Normal self' →
  ChoroMap.palettes self' = ChoroMap.palettes self.
Proof.
  unfold ChoroMap.selectVariable. repeat case_match; try done.
  - intros [= <-].
    by rewrite (proj2 (proj2 (proj2 (proj2 (proj2 (proj2
                 (updateStyle_fields _))))))).
  - by intros [= <-].
  - by intros [= <-].
  - by intros [= <-].
Qed.

Lemma reachable_palettes_defined (self : ChoroMap.t) :
  reachable self → palettes_defined (ChoroMap.palettes self).
Proof.
  induction 1 as [opts|input self _ IH|self _ IH|layout self _ IH|self _ IH
                 |index self _ IH|index self self' _ IH Hsel].
  - constructor.
  - by rewrite (proj1 (proj2 (importData_fields input self))).
  - by apply buildPalettes_defined.
  - unfold ChoroMap.draw. destruct (ChoroMap.data self); [|done].
    by rewrite (proj2 (proj2 (proj2 (proj2 (proj2 (proj2
                 (updateStyle_fields _))))))).
  - by rewrite (proj2 (proj2 (proj2 (proj2 (proj2 (proj2
                 (updateStyle_fields _))))))).
  - unfold ChoroMap.selectPalette.
    by rewrite (proj2 (proj2 (proj2 (proj2 (proj2 (proj2
                 (updateStyle_fields _))))))).
  - by rewrite (selectVariable_palettes _ _ _ Hsel).
Qed.

(** C10. Every palette of the list of a map has a colour list: the
    constructor starts from the empty list, [buildPalettes] keeps the
    property, and no other operation touches the list.  Hence the palette
    that [updateStyle] selects, when there is one, has colours. *)
Theorem palettes_always_defined (self : ChoroMap.t) :
  reachable self →
  (∀ opts, ChoroMap.palettes (ChoroMap.new opts) = [])
  ∧ (∀ self0, palettes_defined (ChoroMap.palettes self0) →
              palettes_defined
                (ChoroMap.palettes (ChoroMap.buildPalettes self0)))
  ∧ palettes_defined (ChoroMap.palettes self)
  ∧ (∀ p, JS.get (ChoroMap.palettes self) (ChoroMap.palette self) = Some p →
          is_Some (ColorPalette.colors p)).
Proof.
  intros Hreach. split_and!.
  - done.
  - apply buildPalettes_defined.
  - by apply reachable_palettes_defined.
  - intros p Hp%get_elem_of.
    pose proof (reachable_palettes_defined self Hreach) as Hall.
    unfold palettes_defined in Hall. rewrite Forall_forall in Hall. auto.
Qed.

End Palettes.

Lemma palettes_always_defined_witness :
  palettes_defined (ChoroMap.palettes (example_map (JS.of_Z 2)))
  ∧ ∀ p, JS.get (ChoroMap.palettes (example_map (JS.of_Z 2)))
           (ChoroMap.palette (example_map (JS.of_Z 2))) = Some p →
         is_Some (ColorPalette.colors p).
Proof.
  destruct (@palettes_always_defined example_platform example_colors
              (example_map (JS.of_Z 2))) as (_ & _ & Hall & Hsel).
  - unfold example_map, ChoroMap.load.
    apply reach_draw, reach_buildPalettes, reach_importData, reach_new.
  - split; [exact Hall|exact Hsel].
Defined.

(** * Further properties *)

(** ** Binding a template *)

Section TemplateMore.

Context `{Platform}.

#[local] Arguments Ascii.eqb : simpl never.

Lemma get_substitution_literal (matched pre suf r : string) :
  no_dollar r = true → Str.get_substitution matched pre suf r = r.
Proof.
  induction r as [|c r IH]; [done|]. simpl.
  intros [Hc Hr]%andb_true_iff. apply negb_true_iff in Hc. rewrite Hc.
  by rewrite IH.
Qed.

Lemma split_first_here (p s : string) :
  Str.starts_with p s = true →
  Str.split_first p s = Some ("", Str.drop (String.length p) s).
Proof. intros Hs. destruct s; simpl; by rewrite Hs. Qed.

Lemma split_first_app (p pre suf : string) :
  ∃ pre' suf', Str.split_first p (pre +:+ p +:+ suf) = Some (pre', suf').
Proof.
  induction pre as [|c pre IH].
  - rewrite app_empty_l, split_first_here by apply starts_with_app. eauto.
  - rewrite app_cons. simpl Str.split_first.
    destruct (Str.starts_with p _); [eauto|].
    destruct IH as (pre' & suf' & ->). eauto.
Qed.

(** X1. When no variable of the template is a key of the data, and in
    particular for empty data, [bind] returns the template as it is. *)
Theorem bind_without_bound_variable (t : string) (d : gmap string Scalar) :
  (∀ p n, (p, n) ∈ Template.vars (Template.new t) → d !! n = None) →
  Template.bind (Template.new t) d = t
  ∧ Template.bind (Template.new t) ∅ = t.
Proof.
  intros Hd. unfold Template.bind. split; apply bind_unbound; [done|].
  intros q n _. apply lookup_empty.
Qed.

(** X2. When one placeholder of the template is bound and the others are
    not, and the string form of its value has no dollar sign, [bind]
    returns the text before the first occurrence of the placeholder, the
    value as it is, and the text after it. *)
Theorem bind_literal_value (t : string) (d : gmap string Scalar)
    (p name : string) (v : Scalar) :
  (p, name) ∈ Template.vars (Template.new t) →
  d !! name = Some v →
  no_dollar (to_string v) = true →
  (∀ q n, (q, n) ∈ Template.vars (Template.new t) → q ≠ p → d !! n = None) →
  ∃ pre suf,
    t = pre +:+ p +:+ suf
    ∧ occurrences p (pre +:+ p) = 1%nat
    ∧ Template.bind (Template.new t) d = pre +:+ to_string v +:+ suf.
Proof.
  intros Hin Hv Hdollar Hothers.
  assert (p ∈ (Template.vars (Template.new t)).*1) as Hp.
  { apply list_elem_of_fmap. by exists (p, name). }
  apply new_vars_keys in Hp as [Hp (a & b & Ht)].
  destruct (split_first_app p a b) as (pre & suf & Hsplit).
  rewrite <- Ht in Hsplit. exists pre, suf.
  destruct (split_first_placeholder _ _ _ _ Hp Hsplit) as [Hfirst _].
  split_and!; [by apply split_first_Some|done|].
  unfold Template.bind.
  rewrite (bind_single d p name v _ (new_vars_NoDup t) Hin Hv Hothers).
  change (Template.template (Template.new t)) with t.
  unfold Str.replace. rewrite Hsplit.
  by rewrite get_substitution_literal.
Qed.

Lemma replace_dollar_ampersand (s pat : string) : Str.replace s pat "$&" = s.
Proof.
  unfold Str.replace.
  destruct (Str.split_first pat s) as [[pre suf]|] eqn:Hsplit; [|done].
  apply split_first_Some in Hsplit as ->.
  change (Str.get_substitution pat pre suf "$&") with (pat +:+ "").
  by rewrite app_empty_r.
Qed.

(** X3. A value whose string form is [$&] is replaced by the placeholder
    itself: when every bound variable of the template has such a value,
    [bind] returns the template as it is. *)
Theorem bind_dollar_ampersand (t : string) (d : gmap string Scalar) :
  (∀ p n v, (p, n) ∈ Template.vars (Template.new t) → d !! n = Some v →
            to_string v = "$&") →
  Template.bind (Template.new t) d = t.
Proof.
  unfold Template.bind. change (Template.template (Template.new t)) with t.
  generalize (Template.vars (Template.new t)) as l. intros l. revert t.
  induction l as [|[q n] l IH]; intros t Hd; [done|]. simpl.
  assert (match d !! n with
          | Some v => Str.replace t q (to_string v)
          | None => t
          end = t) as ->.
  { destruct (d !! n) as [v|] eqn:Hv; [|done].
    rewrite (Hd q n v); [apply replace_dollar_ampersand| |done].
    apply list_elem_of_here. }
  apply IH. intros p' n' v' Hin Hv'.
  apply (Hd p' n' v'); [by apply list_elem_of_further|done].
Qed.

End TemplateMore.

Lemma bind_without_bound_variable_witness :
  @Template.bind example_platform (Template.new "{nom}: {_label_}")
    {[ "code" := SStr "01" ]} = "{nom}: {_label_}".
Proof.
  apply (@bind_without_bound_variable example_platform "{nom}: {_label_}"
           {[ "code" := SStr "01" ]}).
  intros p n Hin. vm_compute in Hin.
  apply elem_of_cons in Hin as [[= _ ->]|Hin]; [vm_compute; reflexivity|].
  apply elem_of_cons in Hin as [[= _ ->]|Hin]; [vm_compute; reflexivity|].
  by apply elem_of_nil in Hin.
Defined.

Lemma bind_literal_value_witness :
  ∃ pre suf,
    "{nom}: {v}" = pre +:+ "{v}" +:+ suf
    ∧ occurrences "{v}" (pre +:+ "{v}") = 1%nat
    ∧ @Template.bind example_platform (Template.new "{nom}: {v}")
        {[ "v" := SNum (JS.of_Z 2) ]} = pre +:+ "2" +:+ suf.
Proof.
  apply (@bind_literal_value example_platform "{nom}: {v}"
           {[ "v" := SNum (JS.of_Z 2) ]} "{v}" "v" (SNum (JS.of_Z 2))).
  - vm_compute. apply list_elem_of_further, list_elem_of_here.
  - vm_compute. reflexivity.
  - vm_compute. reflexivity.
  - intros q n Hin Hq. vm_compute in Hin.
    apply elem_of_cons in Hin as [[= _ ->]|Hin]; [vm_compute; reflexivity|].
    apply elem_of_cons in Hin as [[= -> _]|Hin]; [done|].
    by apply elem_of_nil in Hin.
Defined.

Lemma bind_dollar_ampersand_witness :
  @Template.bind example_platform (Template.new "{a} and {b}")
    {[ "a" := SStr "$&" ]} = "{a} and {b}".
Proof.
  apply (@bind_dollar_ampersand example_platform "{a} and {b}"
           {[ "a" := SStr "$&" ]}).
  intros p n v Hin Hv. vm_compute in Hin.
  apply elem_of_cons in Hin as [[= _ ->]|Hin].
  { vm_compute in Hv. injection Hv as <-. reflexivity. }
  apply elem_of_cons in Hin as [[= _ ->]|Hin]; [by vm_compute in Hv|].
  by apply elem_of_nil in Hin.
Defined.

(** ** The data view and the popup *)

Section DataViewMore.

Context `{Platform}.

#[local] Arguments JS.get : simpl never.
#[local] Arguments Qfloor : simpl never.
#[local] Arguments Qminus : simpl never.
#[local] Arguments Ascii.eqb : simpl never.

Lemma colorLabel_label_index (variable : Variable_.t) (x : number) :
  DataView.colorLabel variable x
  = label_index (Variable_.labels variable) x
      ≫= (fun i => Variable_.labels variable !! i).
Proof.
  unfold DataView.colorLabel, label_index.
  destruct x as [| | |q]; try done.
  unfold JS.truthy, JS.gt, JS.lt, JS.le, JS.length, JS.of_nat, JS.of_Z, JS.sub.
  destruct (JS.is_integer q) eqn:Hq.
  - rewrite (Qeq_bool_integer_0 _ Hq), !(Qle_bool_integer_r_b _ _ Hq).
    change (q - inject_Z 1)%Q with (q - 1)%Q.
    destruct (Z.eqb_spec (Qfloor q) 0) as [Hz|Hz]; simpl.
    { rewrite Hz. by destruct (Z.of_nat _). }
    destruct (Z.leb_spec (Qfloor q) 0); simpl.
    { by destruct (Z.leb_spec 1 (Qfloor q)); [lia|]. }
    destruct (Z.leb_spec 1 (Qfloor q)); [|lia]. simpl.
    destruct (Z.leb_spec (Qfloor q)
                (Z.of_nat (List.length (Variable_.labels variable)))); [|done].
    simpl. rewrite get_integer.
    + by rewrite Qfloor_sub_1.
    + by rewrite is_integer_sub_1.
    + rewrite Qfloor_sub_1. lia.
  - simpl. change (q - inject_Z 1)%Q with (q - 1)%Q.
    rewrite get_not_integer by (by rewrite is_integer_sub_1).
    by repeat case_match.
Qed.

Lemma label_index_lookup (labels : list string) (x : number) (i : nat) :
  label_index labels x = Some i → is_Some (labels !! i) ∧ JS.truthy x = true.
Proof.
  unfold label_index. destruct x as [| | |q]; try done.
  destruct (JS.is_integer q) eqn:Hq; [|done]. simpl.
  destruct (Z.leb_spec 1 (Qfloor q)); [|done].
  destruct (Z.leb_spec (Qfloor q) (Z.of_nat (List.length labels))); [|done].
  simpl. intros [= <-]. split; [apply lookup_lt_is_Some_2; lia|].
  rewrite (Qeq_bool_integer_0 _ Hq).
  by destruct (Z.eqb_spec (Qfloor q) 0); [lia|].
Qed.

(** X4. Without a popup template, or for a feature without record, the
    popup content is the label of the colour value of the feature: the
    label at position [k - 1] for an integer value [k] from 1 to the
    number of labels; the text [undefined] for any other truthy value;
    and nothing when the value is missing, zero or NaN. *)
Theorem popup_content_label (dv : DataView.t) (feature : option Feature) :
  DataView.popupTemplate dv = None ∨ DataView.getRecord dv feature = None →
  let labels := Variable_.labels (DataView.variable dv) in
  DataView.getPopupContent dv feature
  = match DataView.getColorValue dv feature with
    | None => ""
    | Some v =>
        match label_index labels v with
        | Some i => default "" (labels !! i)
        | None => if JS.truthy v then "undefined" else ""
        end
    end
  ∧ (∀ v i, DataView.getColorValue dv feature = Some v →
            label_index labels v = Some i →
            ∃ l, labels !! i = Some l
                 ∧ DataView.getPopupContent dv feature = l).
Proof.
  intros Hcase labels.
  assert (DataView.getPopupContent dv feature
          = DataView.color_label_content dv feature) as ->.
  { unfold DataView.getPopupContent.
    destruct Hcase as [-> | ->]; [done|by destruct (DataView.popupTemplate dv)]. }
  unfold DataView.color_label_content.
  destruct (DataView.getColorValue dv feature) as [v|]; [|by split].
  rewrite colorLabel_label_index. fold labels.
  destruct (label_index labels v) as [i|] eqn:Hi.
  - destruct (label_index_lookup _ _ _ Hi) as [[l Hl] ->]. simpl.
    rewrite Hl. simpl. split; [done|].
    intros v' i' [= <-] Hi'. rewrite Hi in Hi'. injection Hi' as <-. eauto.
  - simpl. split; [by destruct (JS.truthy v)|].
    intros v' i' [= <-] Hi'. by rewrite Hi in Hi'.
Qed.

Lemma getRecord_feature_of_code (dv : DataView.t) (id : string) :
  id ≠ "" →
  DataView.getRecord dv (Some (feature_of_code id)) = DataView.data dv !! id.
Proof.
  intros Hid. unfold DataView.getRecord, feature_of_code. simpl.
  rewrite lookup_singleton_eq. simpl.
  by apply String.eqb_neq in Hid as ->.
Qed.

(** X5. A lookup by feature finds nothing when the feature is undefined,
    has no properties or no code, or has a falsy code (0, NaN, the empty
    string, false), whatever the data holds: such a feature has no colour
    value, is drawn in the default colour and has an empty popup
    content. *)
Theorem feature_without_code (self : ChoroMap.t) (dv : DataView.t)
    (colors : list string) (opacity : number) (feature : option Feature) :
  feature_code feature = None
  ∨ (∃ id, feature_code feature = Some id ∧ truthy id = false) →
  DataView.getRecord dv feature = None
  ∧ ChoroMap.getValue self feature = None
  ∧ color (ChoroMap.style self colors opacity feature) = Some "#EEEEEE"
  ∧ DataView.getPopupContent dv feature = "".
Proof.
  intros Hcode.
  assert (∀ dv', DataView.getRecord dv' feature = None) as Hrec.
  { intros dv'. unfold DataView.getRecord. unfold feature_code in Hcode.
    destruct feature as [f|]; [|done]. simpl in Hcode.
    destruct Hcode as [-> | (id & -> & ->)]; done. }
  assert (∀ dv', DataView.getColorValue dv' feature = None) as Hval.
  { intros dv'. unfold DataView.getColorValue. by rewrite Hrec. }
  assert (ChoroMap.getValue self feature = None) as Hget.
  { unfold ChoroMap.getValue. by destruct (ChoroMap.dataView self). }
  split_and!; [done..| |].
  - unfold ChoroMap.style. by rewrite Hget.
  - unfold DataView.getPopupContent, DataView.color_label_content.
    rewrite Hrec, Hval. by destruct (DataView.popupTemplate dv).
Qed.

End DataViewMore.

Section PopupTemplate.

Context `{Platform}.

#[local] Arguments Ascii.eqb : simpl never.
#[local] Arguments exec_here : simpl never.

Lemma exec_here_no_open c (s : string) :
  Ascii.eqb c "{" = false → exec_here (String c s) = None.
Proof. intros Hc. unfold exec_here. by rewrite Hc. Qed.

Lemma match_regexpVars_no_open (pre s : string) :
  no_open pre = true → match_regexpVars (pre +:+ s) = match_regexpVars s.
Proof.
  induction pre as [|c pre IH]; [done|]. simpl.
  intros [Hc Hpre]%andb_true_iff. apply negb_true_iff in Hc.
  rewrite app_cons, match_regexpVars_unfold, (exec_here_no_open _ _ Hc).
  by apply IH.
Qed.

Lemma match_regexpVars_label (pre suf : string) :
  no_open pre = true → no_open suf = true →
  match_regexpVars (pre +:+ "{_label_}" +:+ suf) = ["{_label_}"].
Proof.
  intros Hpre Hsuf. rewrite (match_regexpVars_no_open _ _ Hpre).
  rewrite match_regexpVars_unfold.
  assert (exec_here ("{_label_}" +:+ suf) = Some "{_label_}") as ->.
  { apply exec_here_Some. by exists "_label_", suf. }
  rewrite drop_app_length. f_equal.
  rewrite <- (app_empty_r suf), (match_regexpVars_no_open _ _ Hsuf).
  reflexivity.
Qed.

Lemma split_first_no_open (pre p suf : string) :
  no_open pre = true →
  Str.split_first (String "{" p) (pre +:+ String "{" (p +:+ suf))
  = Some (pre, suf).
Proof.
  induction pre as [|c pre IH].
  - intros _. rewrite app_empty_l.
    change (String "{" (p +:+ suf)) with (String "{" p +:+ suf).
    rewrite split_first_here by apply starts_with_app.
    by rewrite drop_app_length.
  - simpl. intros [Hc Hpre]%andb_true_iff. apply negb_true_iff in Hc.
    rewrite ?app_cons. simpl Str.split_first.
    rewrite Ascii.eqb_sym, Hc. simpl. by rewrite (IH Hpre).
Qed.

(** X6. A popup template made of one [{_label_}] placeholder between two
    texts without opening brace shows, for a feature with a record, the
    first text, the label the constructor stored for the feature, and the
    second text, when the colour attribute of the record is truthy and
    the label has no dollar sign; when the attribute is absent or falsy
    and the record has no ["_label_"] of its own, it shows the template
    itself, placeholder included. *)
Theorem popup_label_placeholder (data : LayerData) (variable : Variable_.t)
    (id : string) (record : gmap string Scalar) (pre suf : string) :
  Variable_.popup variable = Some (pre +:+ "{_label_}" +:+ suf) →
  no_open pre = true → no_open suf = true →
  id ≠ "" → data !! id = Some record →
  let content :=
    DataView.getPopupContent (DataView.new data variable)
      (Some (feature_of_code id)) in
  (∀ color, record !! Variable_.color variable = Some color →
            truthy color = true →
            no_dollar (label_at (Variable_.labels variable) (to_number color))
            = true →
            content
            = pre +:+ label_at (Variable_.labels variable) (to_number color)
                  +:+ suf)
  ∧ (record !! "_label_" = None →
     record !! Variable_.color variable = None
     ∨ (∃ color, record !! Variable_.color variable = Some color
                 ∧ truthy color = false) →
     content = pre +:+ "{_label_}" +:+ suf).
Proof.
  intros Hpopup Hpre Hsuf Hid Hrec content.
  assert (content
          = Template.bind (Template.new (pre +:+ "{_label_}" +:+ suf))
              (DataView.attributes_of variable record)) as ->.
  { subst content. unfold DataView.getPopupContent.
    rewrite (getRecord_feature_of_code _ _ Hid).
    unfold DataView.new at 2. rewrite updateVariable_data. simpl.
    rewrite lookup_fmap, Hrec. simpl.
    unfold DataView.new, DataView.updateVariable. simpl. rewrite Hpopup.
    assert (String.eqb (pre +:+ "{_label_}" +:+ suf) "" = false) as ->; [|done].
    apply String.eqb_neq. destruct pre; [done|]. by rewrite app_cons. }
  unfold Template.bind, Template.new. simpl.
  rewrite (match_regexpVars_label _ _ Hpre Hsuf).
  change (foldl Template.record_var [] ["{_label_}"])
    with [("{_label_}", "_label_")].
  simpl. unfold Str.replace.
  change ("{_label_}" +:+ suf) with (String "{" ("_label_}" +:+ suf)).
  change "{_label_}" with (String "{" "_label_}").
  rewrite (split_first_no_open _ _ _ Hpre).
  unfold DataView.attributes_of. split.
  - intros color -> ->. rewrite lookup_insert_eq. simpl.
    intros Hdollar. rewrite colorLabel_label_at.
    by rewrite get_substitution_literal.
  - intros Hlabel [-> | (color & -> & ->)]; by rewrite Hlabel.
Qed.

(** X7. [selectVariable] never rebuilds the records of the data view:
    whatever variable is selected, the ["_label_"] of every feature stays
    the label computed for the variable the view was created with. *)
Theorem selectVariable_keeps_records (index : number)
    (self self' : ChoroMap.t) :
  ChoroMap.selectVariable index self = Normal self' →
  DataView.data <$> ChoroMap.dataView self'
  = DataView.data <$> ChoroMap.dataView self.
Proof.
  unfold ChoroMap.selectVariable.
  destruct (ChoroMap.data self) as [d|] eqn:Hd; [|by intros [= <-]].
  destruct (ChoroMap.dataView self) as [dv|] eqn:Hdv;
    [|intros [= <-]; by rewrite Hdv].
  destruct (_ && _); [|intros [= <-]; by rewrite Hdv].
  destruct (JS.get _ _) as [v|]; [|done]. intros [= <-].
  rewrite (proj1 (proj2 (proj2 (updateStyle_fields _)))). simpl.
  unfold DataView.setVariable. by rewrite updateVariable_data.
Qed.




End PopupTemplate.

(** ** Importing data and building palettes *)

Section ImportMore.

Context `{Platform} `{ColorsModule}.

#[local] Arguments JS.get : simpl never.

Lemma get_head {A : Type} (x : A) (l : list A) :
  JS.get (x :: l) (JS.of_Z 0) = Some x.
Proof. by rewrite get_of_Z. Qed.


(** X9. When [importData] stores the data (a legacy document, or
    non-empty variables and layers), the scale size is the length of
    [colors] when it is an array and [colors] itself when it is a number;
    the palette definitions are [input.palettes] when present, else the
    single palette of the array, else none; the layer of the data view is
    the first one whatever [input.defaultLayer] says; and the current
    layer, variable and palette are reset to index 0. *)
Theorem importData_scale (input : InputMapData.t) (self : ChoroMap.t) :
  InputMapData.data input ≠ None
  ∨ (default [] (InputMapData.variables input) ≠ []
     ∧ default [] (InputMapData.layers input) ≠ []) →
  let self' := ChoroMap.importData input self in
  ∃ d layer0 variable0,
    ChoroMap.data self' = Some d
    ∧ MapData.n_colors d
      = match InputMapData.colors input with
        | ColorList colors => JS.length colors
        | ColorCount n => n
        end
    ∧ MapData.palettes d
      = match InputMapData.palettes input, InputMapData.colors input with
        | Some palettes, _ => palettes
        | None, ColorList colors =>
            [ColorPalette.mk None None (Some colors) None]
        | None, ColorCount _ => []
        end
    ∧ MapData.layout d = InputMapData.layout input
    ∧ MapData.defaultOpacity d = InputMapData.defaultOpacity input
    ∧ MapData.defaultLayer d = JS.of_Z 0
    ∧ head (MapData.layers d) = Some layer0
    ∧ head (MapData.variables d) = Some variable0
    ∧ ChoroMap.dataView self'
      = Some (DataView.new (LayerView.data layer0) variable0)
    ∧ ChoroMap.dataLayerIndex self' = JS.of_Z 0
    ∧ ChoroMap.variableIndex self' = JS.of_Z 0
    ∧ ChoroMap.palette self' = JS.of_Z 0.
Proof.
  intros Hstored self'. subst self'. unfold ChoroMap.importData.
  destruct (InputMapData.data input) as [data|] eqn:Hdata.
  - rewrite !get_head.
    destruct (InputMapData.colors input), (InputMapData.palettes input);
      simpl; eexists _, _, _; split_and!; reflexivity.
  - destruct Hstored as [?|[Hv Hl]]; [done|].
    destruct (default [] (InputMapData.variables input)) as [|v vs]; [done|].
    destruct (default [] (InputMapData.layers input)) as [|l ls]; [done|].
    rewrite !get_head.
    destruct (InputMapData.colors input), (InputMapData.palettes input);
      simpl; eexists _, _, _; split_and!; reflexivity.
Qed.

(** X10. Importing the same document a second time changes nothing. *)
Theorem importData_idempotent (input : InputMapData.t) (self : ChoroMap.t) :
  ChoroMap.importData input (ChoroMap.importData input self)
  = ChoroMap.importData input self.
Proof.
  unfold ChoroMap.importData.
  destruct (InputMapData.data input) as [data|].
  - rewrite !get_head.
    by destruct (InputMapData.colors input), (InputMapData.palettes input).
  - destruct (default [] (InputMapData.variables input)) as [|v vs];
      destruct (default [] (InputMapData.layers input)) as [|l ls];
      rewrite ?get_head;
      by destruct (InputMapData.colors input), (InputMapData.palettes input).
Qed.

Lemma buildPalettes_data (self : ChoroMap.t) (d : MapData.t) :
  ChoroMap.data self = Some d →
  ChoroMap.data (ChoroMap.buildPalettes self)
  = Some (MapData.mk (MapData.variables d)
            ((fun def => default def (resolved_palette (MapData.n_colors d) def))
               <$> MapData.palettes d)
            (MapData.n_colors d) (MapData.layout d) (MapData.layers d)
            (MapData.defaultLayer d) (MapData.defaultOpacity d)).
Proof.
  intros Hd. unfold ChoroMap.buildPalettes. rewrite Hd.
  by rewrite buildPalettes_fold.
Qed.

Lemma resolved_palette_default (n : number) (def : ColorPalette.t) :
  resolved_palette n (default def (resolved_palette n def))
  = resolved_palette n def.
Proof.
  unfold resolved_palette.
  destruct (ColorPalette.colors def) as [cs|] eqn:Hcs; simpl.
  { by rewrite Hcs. }
  destruct (ColorPalette.name def) as [name|] eqn:Hname; simpl.
  - destruct (decide (name = "")) as [Hn|Hn]; simpl.
    { rewrite Hcs, Hname. by rewrite decide_True. }
    destruct (get_palette name n) eqn:Hget; simpl; [done|].
    rewrite Hcs, Hname. by rewrite decide_False, Hget.
  - by rewrite Hcs, Hname.
Qed.

Lemma omap_resolved_default (n : number) (defs : list ColorPalette.t) :
  omap (resolved_palette n)
    ((fun def => default def (resolved_palette n def)) <$> defs)
  = omap (resolved_palette n) defs.
Proof.
  induction defs as [|def defs IH]; [done|]. csimpl.
  by rewrite resolved_palette_default, IH.
Qed.

(** X11. [buildPalettes] is not idempotent: the definitions it resolved
    now carry their colours, the palette list is never emptied, and a
    second call appends the same palettes once more. *)
Theorem buildPalettes_twice (self : ChoroMap.t) (d : MapData.t) :
  ChoroMap.data self = Some d →
  let added := omap (resolved_palette (MapData.n_colors d)) (MapData.palettes d) in
  ChoroMap.palettes (ChoroMap.buildPalettes (ChoroMap.buildPalettes self))
  = ChoroMap.palettes self ++ added ++ added.
Proof.
  intros Hd added.
  rewrite (buildPalettes_palettes _ _ (buildPalettes_data _ _ Hd)).
  rewrite (buildPalettes_palettes _ _ Hd). simpl.
  rewrite <- (assoc_L (++)). do 2 f_equal. subst added.
  apply omap_resolved_default.
Qed.

End ImportMore.

(** ** Styling *)

Section StyleMore.

Context `{Platform} `{ColorsModule}.

#[local] Arguments JS.get : simpl never.

Lemma defaultOpacity_truthy (self : ChoroMap.t) :
  JS.truthy (ChoroMap.defaultOpacity self) = true.
Proof.
  unfold ChoroMap.defaultOpacity.
  destruct (ChoroMap.data self ≫= MapData.defaultOpacity) as [x|];
    [destruct (JS.truthy x) eqn:Hx; [done|]|];
    (destruct (FranceChoroMapOpts.defaultOpacity (ChoroMap.opts self)) as [y|];
     [destruct (JS.truthy y) eqn:Hy; done|done]).
Qed.

Lemma setStyle_features (f : option Feature → PathStyle)
    (layer : list (Feature * option PathStyle)) :
  (ChoroMap.setStyle f layer).*1 = layer.*1.
Proof.
  unfold ChoroMap.setStyle. rewrite <- list_fmap_compose.
  by apply list_fmap_ext.
Qed.

Lemma setStyle_by_features (f g : option Feature → PathStyle)
    (la lb : list (Feature * option PathStyle)) :
  la.*1 = lb.*1 → (∀ x, f x = g x) →
  ChoroMap.setStyle f la = ChoroMap.setStyle g lb.
Proof.
  intros Hl Hfg. unfold ChoroMap.setStyle.
  transitivity ((fun x => (x, Some (f (Some x)))) <$> la.*1).
  { rewrite <- list_fmap_compose. by apply list_fmap_ext. }
  rewrite Hl, <- list_fmap_compose. apply list_fmap_ext.
  intros i [x s] _. simpl. by rewrite Hfg.
Qed.

Lemma updateStyle_styles_visible (self : ChoroMap.t) :
  styles_visible (ChoroMap.layer self) →
  styles_visible (ChoroMap.layer (ChoroMap.updateStyle self)).
Proof.
  intros Hself. unfold ChoroMap.updateStyle.
  destruct (ChoroMap.data self); [|done].
  destruct (ChoroMap.dataView self); [|done].
  destruct (ChoroMap.layer self) as [layer|] eqn:Hlayer;
    [|by rewrite Hlayer].
  destruct (JS.get _ _) as [p|]; [|by rewrite Hlayer].
  destruct (ColorPalette.colors p) as [colors|]; [|by rewrite Hlayer].
  intros l f sty [= <-] Hin. simpl in Hin.
  apply list_elem_of_fmap in Hin as ([f0 s0] & Heq & _).
  simpl in Heq. injection Heq as -> ->. simpl.
  split; [|done].
  destruct (ColorPalette.opacity p) as [o|]; [|apply defaultOpacity_truthy].
  destruct (JS.truthy o) eqn:Ho; [done|apply defaultOpacity_truthy].
Qed.

(** X12. An opacity of 0 cannot be configured: in every state the map can
    reach, each feature that has been styled has a fill opacity that is
    neither 0 nor NaN (a falsy opacity of the palette, of the data or of
    the options is skipped, down to 0.6), and no stroke. *)
Theorem reachable_styles_visible (self : ChoroMap.t) :
  reachable self → styles_visible (ChoroMap.layer self).
Proof.
  induction 1 as [opts|input self _ IH|self _ IH|layout self _ IH|self _ IH
                 |index self _ IH|index self self' _ IH Hsel].
  - by intros l f sty.
  - by rewrite (proj2 (proj2 (proj2 (importData_fields input self)))).
  - unfold ChoroMap.buildPalettes. destruct (ChoroMap.data self); [|done].
    by destruct (foldl _ _ _).
  - unfold ChoroMap.draw. destruct (ChoroMap.data self); [|done].
    apply updateStyle_styles_visible. intros l f sty [= <-] Hin.
    by apply list_elem_of_fmap in Hin as (f0 & Heq & _).
  - by apply updateStyle_styles_visible.
  - by apply updateStyle_styles_visible.
  - revert Hsel. unfold ChoroMap.selectVariable.
    repeat case_match; try done; intros [= <-]; try done.
    by apply updateStyle_styles_visible.
Qed.

(** X13. Selecting a palette index at which the list has no palette (a
    negative or too large integer, or NaN) records the index and restyles
    nothing: the layer and the legend stay as they were. *)
Theorem selectPalette_out_of_range (index : number) (self : ChoroMap.t) :
  index = JS.NaN
  ∨ (∃ k, index = JS.of_Z k
          ∧ (k < 0 ∨ Z.of_nat (List.length (ChoroMap.palettes self)) ≤ k)%Z) →
  ChoroMap.selectPalette index self
  = ChoroMap.mk (ChoroMap.opts self) (ChoroMap.data self)
      (ChoroMap.dataView self) (ChoroMap.dataLayerIndex self)
      (ChoroMap.variableIndex self) index (ChoroMap.palettes self)
      (ChoroMap.layer self) (ChoroMap.legend self).
Proof.
  intros Hindex.
  assert (JS.get (ChoroMap.palettes self) index = None) as Hget.
  { destruct Hindex as [->|(k & -> & [Hk|Hk])]; [done| |].
    - unfold JS.get, JS.of_Z. rewrite andb_comm.
      change 0%Q with (inject_Z 0). rewrite Qle_bool_of_Z_l_b.
      unfold Qfloor, inject_Z. simpl. rewrite Z.div_1_r.
      by destruct (Z.leb_spec 0 k); [lia|].
    - rewrite get_of_Z by lia. apply lookup_ge_None. lia. }
  unfold ChoroMap.selectPalette, ChoroMap.updateStyle. simpl.
  rewrite Hget. by repeat case_match.
Qed.


(** X15. A non-integral index that passes the range guard of
    [selectVariable] makes it throw: [variables[index]] is undefined and
    the data view reads the popup of an undefined variable. *)
Theorem selectVariable_fractional_throws (q : Q) (self : ChoroMap.t)
    (d : MapData.t) (dv : DataView.t) :
  ChoroMap.data self = Some d → ChoroMap.dataView self = Some dv →
  JS.is_integer q = false →
  (0 <= q)%Q →
  (q <= inject_Z (Z.of_nat (List.length (MapData.variables d))) - 1)%Q →
  ChoroMap.selectVariable (JS.Fin q) self = TypeError.
Proof.
  intros Hd Hdv Hq Hge Hle. unfold ChoroMap.selectVariable. rewrite Hd, Hdv.
  unfold JS.ge, JS.le, JS.sub, JS.length, JS.of_nat, JS.of_Z.
  apply Qle_bool_iff in Hge. apply Qle_bool_iff in Hle.
  change (inject_Z 0) with 0%Q. change (inject_Z 1) with 1%Q.
  rewrite Hge, Hle. simpl. by rewrite get_not_integer.
Qed.

End StyleMore.

(** ** Restyling *)

Section Restyle.

Context `{Platform}.

#[local] Arguments JS.get : simpl never.

Lemma updateStyle_no_choice (self : ChoroMap.t) :
  style_choice self = None → ChoroMap.updateStyle self = self.
Proof.
  unfold style_choice, ChoroMap.updateStyle. by repeat case_match.
Qed.

Lemma updateStyle_choice (self : ChoroMap.t) colors opacity :
  style_choice self = Some (colors, opacity) →
  ∃ dv layer,
    ChoroMap.dataView self = Some dv ∧ ChoroMap.layer self = Some layer
    ∧ ChoroMap.updateStyle self
      = ChoroMap.mk (ChoroMap.opts self) (ChoroMap.data self)
          (ChoroMap.dataView self) (ChoroMap.dataLayerIndex self)
          (ChoroMap.variableIndex self) (ChoroMap.palette self)
          (ChoroMap.palettes self)
          (Some (ChoroMap.setStyle (ChoroMap.style self colors opacity) layer))
          (imap (fun index value =>
                   (DataView.getColorLabels dv !! index, value)) colors).
Proof.
  unfold style_choice, ChoroMap.updateStyle.
  destruct (ChoroMap.data self); [|done].
  destruct (ChoroMap.dataView self) as [dv|]; [|done].
  destruct (ChoroMap.layer self) as [layer|]; [|done].
  destruct (JS.get _ _) as [p|]; [|done].
  destruct (ColorPalette.colors p); [|done].
  intros [= <- <-]. by exists dv, layer.
Qed.

(** X16. Restyling is idempotent: a second [updateStyle] in a row changes
    nothing. *)
Theorem updateStyle_idempotent (self : ChoroMap.t) :
  ChoroMap.updateStyle (ChoroMap.updateStyle self) = ChoroMap.updateStyle self.
Proof.
  destruct (style_choice self) as [[colors opacity]|] eqn:Hchoice.
  - destruct (updateStyle_choice _ _ _ Hchoice) as (dv & layer & Hdv & Hl & ->).
    set (styled := ChoroMap.mk _ _ _ _ _ _ _ _ _).
    assert (style_choice styled = Some (colors, opacity)) as Hstyled.
    { revert Hchoice. unfold style_choice, styled. simpl. rewrite Hdv, Hl.
      unfold ChoroMap.defaultOpacity. simpl. done. }
    destruct (updateStyle_choice _ _ _ Hstyled) as (dv' & layer' & Hdv' & Hl' & ->).
    unfold styled in Hdv', Hl'. simpl in Hdv', Hl'.
    rewrite Hdv in Hdv'. injection Hdv' as <-. injection Hl' as <-.
    unfold styled. simpl. f_equal. f_equal.
    apply setStyle_by_features; [apply setStyle_features|done].
  - by rewrite !(updateStyle_no_choice _ Hchoice).
Qed.

Lemma setVariable_setVariable (v w : Variable_.t) (dv : DataView.t) :
  DataView.setVariable v (DataView.setVariable w dv) = DataView.setVariable v dv.
Proof.
  unfold DataView.setVariable. by rewrite updateVariable_data.
Qed.

Lemma selectVariable_valid (j : Z) (self : ChoroMap.t) d dv :
  ChoroMap.data self = Some d → ChoroMap.dataView self = Some dv →
  (0 ≤ j ≤ Z.of_nat (List.length (MapData.variables d)) - 1)%Z →
  ∃ v, MapData.variables d !! Z.to_nat j = Some v
       ∧ ChoroMap.selectVariable (JS.of_Z j) self
         = Normal (ChoroMap.updateStyle (with_variable (JS.of_Z j) v dv self)).
Proof.
  intros Hd Hdv [Hj0 Hjn].
  assert (Z.to_nat j < List.length (MapData.variables d))%nat as Hlt by lia.
  destruct (lookup_lt_is_Some_2 _ _ Hlt) as [v Hv]. exists v. split; [done|].
  unfold ChoroMap.selectVariable. rewrite Hd, Hdv.
  rewrite ge_of_Z, le_length_pred, get_of_Z, Hv by done.
  destruct (Z.leb_spec 0 j); [|lia].
  destruct (Z.leb_spec j (Z.of_nat (List.length (MapData.variables d)) - 1));
    [|lia].
  simpl. unfold with_variable. by rewrite Hd.
Qed.

Lemma restyle_with_variable (j : number) (v w : Variable_.t) (dv : DataView.t)
    (i : number) (self : ChoroMap.t) :
  ChoroMap.updateStyle
    (with_variable j v (DataView.setVariable w dv)
       (ChoroMap.updateStyle (with_variable i w dv self)))
  = ChoroMap.updateStyle (with_variable j v dv self).
Proof.
  destruct (style_choice (with_variable i w dv self))
    as [[colors opacity]|] eqn:Hchoice.
  - destruct (updateStyle_choice _ _ _ Hchoice) as (dv1 & layer & _ & Hl & ->).
    simpl in Hl.
    set (C := with_variable j v _ _).
    assert (style_choice C = Some (colors, opacity)) as HC.
    { revert Hchoice. unfold style_choice, C, with_variable. simpl.
      rewrite Hl. unfold ChoroMap.defaultOpacity. simpl. done. }
    assert (style_choice (with_variable j v dv self) = Some (colors, opacity))
      as HD.
    { revert Hchoice. unfold style_choice, with_variable. simpl.
      rewrite Hl. unfold ChoroMap.defaultOpacity. simpl. done. }
    destruct (updateStyle_choice _ _ _ HC) as (dvC & lC & HdvC & HlC & ->).
    destruct (updateStyle_choice _ _ _ HD) as (dvD & lD & HdvD & HlD & ->).
    unfold C, with_variable in *. simpl in *.
    injection HlC as <-. rewrite Hl in HlD. injection HlD as <-.
    injection HdvC as <-. injection HdvD as <-.
    rewrite setVariable_setVariable. f_equal. f_equal.
    apply setStyle_by_features; [apply setStyle_features|].
    intros x. by unfold ChoroMap.style, ChoroMap.getValue.
  - rewrite (updateStyle_no_choice _ Hchoice).
    unfold with_variable. simpl. by rewrite setVariable_setVariable.
Qed.

Lemma selectVariable_cases (i : number) (self self1 : ChoroMap.t) dv :
  ChoroMap.dataView self = Some dv →
  ChoroMap.selectVariable i self = Normal self1 →
  self1 = self
  ∨ ∃ w, self1 = ChoroMap.updateStyle (with_variable i w dv self).
Proof.
  unfold ChoroMap.selectVariable, with_variable. intros ->.
  destruct (ChoroMap.data self); [|intros [= <-]; by left].
  destruct (_ && _); [|intros [= <-]; by left].
  destruct (JS.get _ _) as [w|]; [|done]. intros [= <-]. right. by exists w.
Qed.

(** X17. The last selection wins: after any completed [selectVariable],
    selecting a valid integer index gives the state that selecting it
    directly would have given; nothing of the selection in between is
    left in the index, the view, the styles or the legend. *)
Theorem selectVariable_last_wins (i : number) (j : Z)
    (self self1 : ChoroMap.t) d dv :
  ChoroMap.data self = Some d → ChoroMap.dataView self = Some dv →
  (0 ≤ j ≤ Z.of_nat (List.length (MapData.variables d)) - 1)%Z →
  ChoroMap.selectVariable i self = Normal self1 →
  ChoroMap.selectVariable (JS.of_Z j) self1
  = ChoroMap.selectVariable (JS.of_Z j) self.
Proof.
  intros Hd Hdv Hj Hsel.
  destruct (selectVariable_cases _ _ _ _ Hdv Hsel) as [->|[w ->]]; [done|].
  destruct (selectVariable_valid j self d dv Hd Hdv Hj) as (v & Hv & ->).
  destruct (updateStyle_fields (with_variable i w dv self))
    as (Ho & Hd1 & Hdv1 & Hdli & _ & Hpal & Hpals).
  simpl in Hd1, Hdv1. rewrite Hd in Hd1.
  destruct (selectVariable_valid j _ d _ Hd1 Hdv1 Hj) as (v' & Hv' & ->).
  rewrite Hv in Hv'. injection Hv' as <-. f_equal.
  apply restyle_with_variable.
Qed.

End Restyle.

(** ** The earlier revisions *)

Section Revisions.

Context `{Platform} `{ColorsModule}.

#[local] Arguments JS.get : simpl never.





End Revisions.

Section FirstRevisionFacts.

Context `{Platform}.

#[local] Arguments JS.get : simpl never.
#[local] Arguments Qfloor : simpl never.
#[local] Arguments Qminus : simpl never.

Lemma truthy_of_Z (k : Z) : JS.truthy (JS.of_Z k) = negb (k =? 0)%Z.
Proof.
  unfold JS.truthy, JS.of_Z. rewrite Qeq_bool_integer_0.
  - unfold Qfloor, inject_Z. simpl. by rewrite Z.div_1_r.
  - unfold JS.is_integer, inject_Z. simpl. by rewrite Z.mod_1_r.
Qed.

Lemma lt_of_Z (a b : Z) : JS.lt (JS.of_Z a) (JS.of_Z b) = (a <? b)%Z.
Proof.
  unfold JS.lt, JS.of_Z, Qle_bool. simpl. rewrite !Z.mul_1_r.
  by rewrite Z.ltb_antisym.
Qed.

Lemma is_integer_of_Z (k : Z) : JS.is_integer (inject_Z k) = true.
Proof. unfold JS.is_integer, inject_Z. simpl. by rewrite Z.mod_1_r. Qed.

Lemma Qfloor_of_Z (k : Z) : Qfloor (inject_Z k) = k.
Proof. unfold Qfloor, inject_Z. simpl. apply Z.div_1_r. Qed.

Lemma get_pred_of_Z {A : Type} (a : list A) (k : Z) :
  (1 ≤ k)%Z →
  JS.get a (JS.sub (JS.of_Z k) (JS.of_Z 1)) = a !! Z.to_nat (k - 1).
Proof.
  intros Hk. unfold JS.sub, JS.of_Z.
  change (inject_Z k - inject_Z 1)%Q with (inject_Z k - 1)%Q.
  rewrite get_integer.
  - by rewrite Qfloor_sub_1, Qfloor_of_Z.
  - by rewrite is_integer_sub_1, is_integer_of_Z.
  - rewrite Qfloor_sub_1, Qfloor_of_Z. lia.
Qed.

(** X19. In the first revision the guard of [get_value] is strict at the
    top: a feature whose value is an integer from 1 to the number of
    colours minus 1 gets that colour of the scale, and every other
    integer, the number of colours itself included, gets the default
    colour; the last colour of the scale is never reached. *)
Theorem first_revision_style (data : FirstRevision.MapData.t) (id : string)
    (k : Z) :
  id ≠ "" →
  FirstRevision.MapData.data data !! id = Some (JS.of_Z k) →
  let colors := FirstRevision.MapData.colors data in
  let n := Z.of_nat (List.length colors) in
  let assigned :=
    color (FirstRevision.style data (Some (feature_of_code id))) in
  ((1 ≤ k < n)%Z →
   ∃ c, colors !! Z.to_nat (k - 1) = Some c ∧ assigned = Some c)
  ∧ ((k ≤ 0 ∨ n ≤ k)%Z → assigned = Some "#EEEEEE").
Proof.
  intros Hid Hk colors n assigned. subst assigned.
  unfold FirstRevision.style, FirstRevision.get_value, feature_of_code.
  cbn [properties mbind option_bind]. rewrite lookup_singleton_eq.
  cbn [truthy to_string]. apply String.eqb_neq in Hid as ->.
  cbn [negb]. rewrite Hk.
  unfold JS.length, JS.of_nat. rewrite truthy_of_Z, ge_of_Z, lt_of_Z.
  fold colors. fold n. cbn [color]. split.
  - intros [Hk1 Hkn].
    destruct (Z.eqb_spec k 0); [lia|]. destruct (Z.leb_spec 1 k); [|lia].
    destruct (Z.ltb_spec k n); [|lia]. cbn [negb andb].
    rewrite get_pred_of_Z by done.
    assert (Z.to_nat (k - 1) < List.length colors)%nat as Hlt by lia.
    destruct (lookup_lt_is_Some_2 _ _ Hlt) as [c Hc]. by exists c.
  - intros Hout.
    destruct (Z.eqb_spec k 0); [done|]. destruct (Z.leb_spec 1 k); [|done].
    by destruct (Z.ltb_spec k n); [lia|].
Qed.


End FirstRevisionFacts.

(** ** The popup of a feature *)

Section PopupHtml.

Context `{Platform}.

#[local] Arguments JS.get : simpl never.
#[local] Arguments Qfloor : simpl never.



End PopupHtml.

(** ** Instances of the further properties *)

Lemma popup_content_label_witness :
  @DataView.getPopupContent example_platform
    (@DataView.new example_platform {[ "01" := {[ "c" := SNum (JS.of_Z 2) ]} ]}
       (Variable_.mk "c" "" None ["low"; "high"]))
    (Some (feature_of_code "01")) = "high".
Proof.
  rewrite (proj1 (@popup_content_label example_platform
                    (@DataView.new example_platform
                       {[ "01" := {[ "c" := SNum (JS.of_Z 2) ]} ]}
                       (Variable_.mk "c" "" None ["low"; "high"]))
                    (Some (feature_of_code "01")) (or_introl eq_refl))).
  vm_compute. reflexivity.
Defined.

Lemma feature_without_code_witness :
  color (@ChoroMap.style example_platform (example_map (JS.of_Z 2))
           ["#111111"; "#222222"] (JS.Fin (6 # 10)) None)
  = Some "#EEEEEE".
Proof.
  apply (@feature_without_code example_platform (example_map (JS.of_Z 2))
           (@DataView.new example_platform ∅
              (Variable_.mk "c" "" None []))
           ["#111111"; "#222222"] (JS.Fin (6 # 10)) None).
  left. reflexivity.
Defined.

Lemma popup_label_placeholder_witness :
  @DataView.getPopupContent example_platform
    (@DataView.new example_platform {[ "01" := {[ "c" := SNum (JS.of_Z 2) ]} ]}
       example_popup_variable)
    (Some (feature_of_code "01")) = "Level: high!".
Proof.
  destruct (@popup_label_placeholder example_platform
              {[ "01" := {[ "c" := SNum (JS.of_Z 2) ]} ]}
              example_popup_variable "01" {[ "c" := SNum (JS.of_Z 2) ]}
              "Level: " "!") as [Hlabel _].
  - reflexivity.
  - reflexivity.
  - reflexivity.
  - discriminate.
  - vm_compute. reflexivity.
  - rewrite (Hlabel (SNum (JS.of_Z 2))).
    + vm_compute. reflexivity.
    + vm_compute. reflexivity.
    + reflexivity.
    + vm_compute. reflexivity.
Defined.

Lemma selectVariable_keeps_records_witness :
  DataView.data
    <$> ChoroMap.dataView
          (@ChoroMap.updateStyle example_platform
             (with_variable (JS.of_Z 1)
                (Variable_.mk "b" "B" (Some "{nom}: {_label_}") ["few"; "many"])
                (@DataView.new example_platform
                   {[ "01" := {[ "a" := SNum (JS.of_Z 1);
                                 "b" := SNum (JS.of_Z 2);
                                 "nom" := SStr "Ain" ]} ]}
                   (Variable_.mk "a" "A" None ["low"; "high"]))
                example_two_map))
  = DataView.data <$> ChoroMap.dataView example_two_map.
Proof.
  apply (@selectVariable_keeps_records example_platform (JS.of_Z 1)).
  vm_compute. reflexivity.
Defined.


Lemma importData_scale_witness :
  ∃ d,
    ChoroMap.data
      (@ChoroMap.importData example_platform (example_input (JS.of_Z 2))
         (ChoroMap.new example_opts)) = Some d
    ∧ MapData.n_colors d = JS.of_nat 2.
Proof.
  destruct (@importData_scale example_platform (example_input (JS.of_Z 2))
              (ChoroMap.new example_opts))
    as (d & _ & _ & Hd & Hn & _).
  - left. discriminate.
  - exists d. split; [exact Hd|exact Hn].
Defined.

Lemma buildPalettes_twice_witness :
  List.length
    (ChoroMap.palettes
       (@ChoroMap.buildPalettes example_colors
          (@ChoroMap.buildPalettes example_colors example_named_map)))
  = 4%nat.
Proof.
  rewrite (@buildPalettes_twice example_colors example_named_map
             example_named_data eq_refl).
  vm_compute. reflexivity.
Defined.

Lemma reachable_styles_visible_witness :
  styles_visible (ChoroMap.layer (example_map (JS.of_Z 2))).
Proof.
  apply (@reachable_styles_visible example_platform example_colors).
  unfold example_map, ChoroMap.load.
  apply reach_draw, reach_buildPalettes, reach_importData, reach_new.
Defined.

Lemma selectPalette_out_of_range_witness :
  ChoroMap.layer
    (@ChoroMap.selectPalette example_platform (JS.of_Z 5)
       (example_map (JS.of_Z 2)))
  = ChoroMap.layer (example_map (JS.of_Z 2)).
Proof.
  rewrite (@selectPalette_out_of_range example_platform (JS.of_Z 5)
             (example_map (JS.of_Z 2))); [reflexivity|].
  right. exists 5%Z. split; [reflexivity|]. right. vm_compute. discriminate.
Defined.


Lemma selectVariable_fractional_throws_witness :
  @ChoroMap.selectVariable example_platform (JS.Fin (1 # 2)) example_two_map
  = TypeError.
Proof.
  eapply (@selectVariable_fractional_throws example_platform (1 # 2)
            example_two_map).
  - vm_compute. reflexivity.
  - vm_compute. reflexivity.
  - reflexivity.
  - vm_compute. discriminate.
  - vm_compute. discriminate.
Defined.

Lemma selectVariable_last_wins_witness :
  @ChoroMap.selectVariable example_platform (JS.of_Z 0)
    (@ChoroMap.updateStyle example_platform
       (with_variable (JS.of_Z 1)
          (Variable_.mk "b" "B" (Some "{nom}: {_label_}") ["few"; "many"])
          (@DataView.new example_platform
             {[ "01" := {[ "a" := SNum (JS.of_Z 1); "b" := SNum (JS.of_Z 2);
                           "nom" := SStr "Ain" ]} ]}
             (Variable_.mk "a" "A" None ["low"; "high"]))
          example_two_map))
  = @ChoroMap.selectVariable example_platform (JS.of_Z 0) example_two_map.
Proof.
  eapply (@selectVariable_last_wins example_platform (JS.of_Z 1) 0
            example_two_map).
  - vm_compute. reflexivity.
  - vm_compute. reflexivity.
  - vm_compute. split; discriminate.
  - vm_compute. reflexivity.
Defined.


Lemma first_revision_style_witness :
  color (@FirstRevision.style example_platform example_first
           (Some (feature_of_code "01")))
  = Some "#EEEEEE".
Proof.
  apply (@first_revision_style example_platform example_first "01" 2).
  - discriminate.
  - vm_compute. reflexivity.
  - right. simpl. lia.
Defined.


